(** * TowerManager: nearest cellular tower per operator and its coverage

    A shallow embedding of [src/utils/TowerManager.py].

    Numbers.  The pandas columns [Latitude] and [Longitude] and the
    coordinates of the location are Python floats.  They are modelled by
    exact rationals ([Q]): every finite float is a rational, and the
    arithmetic of the code ([-], [+], [** 2], [<]) is taken without rounding.
    The Python [int] radius [area] is a [Z].  A distance is the square root of
    a non-negative rational; it is kept by its radicand (see [dist]), which
    makes the only operation the code applies to distances, [<], exact and
    executable.

    Exceptions.  A Python call either returns or raises: [result].  The
    recursion of [reduced_database] is not structural, it is modelled with
    fuel (the depth of recursion allowed): [None] means that no result was
    reached within that depth. *)

From Stdlib Require Import QArith Qround Qabs Lqa.
From Stdlib Require Reals Qreals.
From stdpp Require Import gmap strings list fin_maps fin_sets.

Local Open Scope Z_scope.

(** ** Numbers *)

(** Python's [x < y] on floats. *)
Definition ltb (x y : Q) : bool := negb (Qle_bool y x).

(** A non-negative real number, kept by its square. *)
Record dist : Type := Root { radicand : Q }.

(** [math.sqrt]. *)
Definition sqrt (q : Q) : dist := Root q.

(** A float literal that is not negative, read as a distance. *)
Definition dist_of (q : Q) : dist := Root (q * q).

(** [d1 < d2] on distances. *)
Definition dist_ltb (d1 d2 : dist) : bool := ltb (radicand d1) (radicand d2).

(** The real number that a distance stands for. *)
Definition real (d : dist) : Rdefinitions.R :=
  R_sqrt.sqrt (Rdefinitions.Q2R (radicand d)).

Definition dist_lt (d1 d2 : dist) : Prop := (radicand d1 < radicand d2)%Q.
Definition dist_le (d1 d2 : dist) : Prop := (radicand d1 <= radicand d2)%Q.
Definition dist_eq (d1 d2 : dist) : Prop := (radicand d1 == radicand d2)%Q.

(** ** Exceptions *)

Inductive exn : Type :=
  | AttributeError (msg : string)
  | KeyError.

Inductive result (A : Type) : Type :=
  | Ok (a : A)
  | Raise (e : exn).
Arguments Ok {A} a.
Arguments Raise {A} e.

#[global] Instance result_ret : MRet result := λ A a, Ok a.

#[global] Instance result_bind : MBind result := λ A B k r,
  match r with
  | Ok a => k a
  | Raise e => Raise e
  end.

(** A dictionary lookup [d[k]]. *)
Definition getitem {A} (o : option A) : result A :=
  match o with
  | Some a => Ok a
  | None => Raise KeyError
  end.

(** A [for] loop over the items of [l] whose body [f] may raise: the state
    is threaded from item to item until an exception leaves the loop. *)
Definition loop {A B} (f : A → B → result A) (r : result A) (l : list B)
    : result A :=
  foldl (λ acc b, a ← acc; f a b) r l.

(** ** Data *)

(** [utils.Locator]: a geolocation with a latitude and a longitude. *)
Record Locator : Type := { latitude : Q; longitude : Q }.

(** A Python object held by a cell of the table or by the report: a number,
    the missing value, a [str] or a [bool]. *)
Inductive value : Type :=
  | Num (q : Q)
  | NaN
  | Str (s : string)
  | Bool (b : bool).

(** A row of the table: the operator, the coordinates, and the cells of the
    remaining columns by column name. *)
Record Tower : Type := {
  Operateur : Z;
  Latitude : Q;
  Longitude : Q;
  cells : list (string * value)
}.

(** A [pandas.DataFrame]: the column names and the rows in order, each with
    its index label. *)
Record DataFrame : Type := {
  columns : list string;
  rows : list (Z * Tower)
}.

#[global] Instance Q_eq_dec : EqDecision Q.
Proof. solve_decision. Defined.
#[global] Instance value_eq_dec : EqDecision value.
Proof. solve_decision. Defined.
#[global] Instance Tower_eq_dec : EqDecision Tower.
Proof. solve_decision. Defined.
#[global] Instance DataFrame_eq_dec : EqDecision DataFrame.
Proof. solve_decision. Defined.

(** [set(df['Operateur'])]. *)
Definition operators (df : DataFrame) : gset Z :=
  list_to_set ((λ ir, Operateur ir.2) <$> rows df).

(** [df.at[index, col]]. *)
Definition cell_of (t : Tower) (col : string) : option value :=
  if decide (col = "Operateur") then Some (Num (inject_Z (Operateur t)))
  else if decide (col = "Latitude") then Some (Num (Latitude t))
  else if decide (col = "Longitude") then Some (Num (Longitude t))
  else (λ p, p.2.2) <$> list_find (λ kv, kv.1 = col) (cells t).

Definition at_ (df : DataFrame) (index : Z) (col : string) : result value :=
  t ← getitem ((λ p, p.2.2) <$> list_find (λ ir, ir.1 = index) (rows df));
  getitem (cell_of t col).

(** The instance: its five attributes. *)
Record TowerManager : Type := {
  location : Locator;
  database : DataFrame;
  networks : list string;
  tower_indexes : gmap Z Z;
  towers_coverage : gmap string (gmap string value)
}.

(** ** reduced_database *)

(** The mask of lines 116-119 on one row. *)
Definition in_box (loc : Locator) (area : Z) (t : Tower) : bool :=
  ltb (latitude loc - inject_Z area) (Latitude t)
  && ltb (Latitude t) (latitude loc + inject_Z area)
  && ltb (longitude loc - inject_Z area) (Longitude t)
  && ltb (Longitude t) (longitude loc + inject_Z area).

(** [self.database.loc[mask]]. *)
Definition box (df : DataFrame) (loc : Locator) (area : Z) : DataFrame :=
  {| columns := columns df;
     rows := filter (λ ir, in_box loc area ir.2 = true) (rows df) |}.

Fixpoint reduced_database (fuel : nat) (df : DataFrame) (loc : Locator)
    (area : Z) : option DataFrame :=
  match fuel with
  | O => None
  | S fuel' =>
      let ret := box df loc area in
      if bool_decide (size (operators ret) < 4)%nat
      then reduced_database fuel' df loc (area + 1)
      else Some ret
  end.

(** ** locate_closest_towers *)

(** Lines 132-134: every operator of the table starts at [(100.0, 0)]. *)
Definition minimums_init (df : DataFrame) : gmap Z (dist * Z) :=
  set_fold (λ op minimums, <[op := (dist_of 100, 0)]> minimums) ∅
    (operators df).

(** Lines 139-142: the distance between the location and a row. *)
Definition distance (loc : Locator) (row : Tower) : dist :=
  let dist_lat := (latitude loc - Latitude row)%Q in
  let dist_ln := (longitude loc - Longitude row)%Q in
  sqrt (dist_lat ^ 2 + dist_ln ^ 2).

(** Lines 139-146: the body of the loop over [iterrows()]. *)
Definition closer (loc : Locator) (minimums : gmap Z (dist * Z))
    (ir : Z * Tower) : result (gmap Z (dist * Z)) :=
  let '(index, row) := ir in
  let dist := distance loc row in
  best ← getitem (minimums !! Operateur row);
  if dist_ltb dist best.1
  then Ok (<[Operateur row := (dist, index)]> minimums)
  else Ok minimums.

(** Lines 132-146. *)
Definition closest (loc : Locator) (df : DataFrame)
    : result (gmap Z (dist * Z)) :=
  loop (closer loc) (Ok (minimums_init df)) (rows df).

Definition locate_closest_towers (self : TowerManager)
    : result TowerManager :=
  minimums ← closest (location self) (database self);
  Ok {| location := location self;
        database := database self;
        networks := networks self;
        tower_indexes :=
          map_fold (λ operator values ti, <[operator := values.2]> ti)
            (tower_indexes self) minimums;
        towers_coverage := towers_coverage self |}.

(** ** find_towers_coverage *)

(** Line 159: [t_f = {1: 'true', 0: 'false'}], looked up with the object of
    a cell.  A key matches when it is equal to [1] or to [0]: so do the
    numbers [1] and [0] of any numeric type, and [True] and [False]. *)
Definition t_f (flag : value) : option value :=
  match flag with
  | Num q =>
      if Qeq_bool q 1 then Some (Str "true")
      else if Qeq_bool q 0 then Some (Str "false")
      else None
  | Bool true => Some (Str "true")
  | Bool false => Some (Str "false")
  | NaN | Str _ => None
  end.

Section Coverage.

(** [databases.datascripts.operator_code]: the table from operator codes to
    display labels. *)
Variable operator_code : gmap Z string.

(** Line 171, one network of one operator. *)
Definition cover_net (df : DataFrame) (operator index : Z)
    (coverage : gmap string (gmap string value)) (net : string)
    : result (gmap string (gmap string value)) :=
  flag ← at_ df index net;
  value ← getitem (t_f flag);
  label ← getitem (operator_code !! operator);
  inner ← getitem (coverage !! label);
  Ok (<[label := <[net := value]> inner]> coverage).

(** Lines 163-171, one operator. *)
Definition cover_operator (df : DataFrame) (nets : list string)
    (coverage : gmap string (gmap string value)) (oi : Z * Z)
    : result (gmap string (gmap string value)) :=
  let '(operator, index) := oi in
  label ← getitem (operator_code !! operator);
  loop (cover_net df operator index) (Ok (<[label := ∅]> coverage)) nets.

Definition find_towers_coverage (self : TowerManager)
    : result TowerManager :=
  coverage ←
    loop (cover_operator (database self) (networks self))
      (Ok (towers_coverage self)) (map_to_list (tower_indexes self));
  Ok {| location := location self;
        database := database self;
        networks := networks self;
        tower_indexes := tower_indexes self;
        towers_coverage := coverage |}.

(** ** location_coverage *)

Definition location_coverage (fuel : nat) (self : TowerManager)
    : option (result TowerManager) :=
  match reduced_database fuel (database self) (location self) 1 with
  | None => None
  | Some ret =>
      Some (self' ← locate_closest_towers
                      {| location := location self;
                         database := ret;
                         networks := networks self;
                         tower_indexes := tower_indexes self;
                         towers_coverage := towers_coverage self |};
            find_towers_coverage self')
  end.

End Coverage.

(** ** __init__ *)

(** The [location] argument: an instance of [Locator], or any other object. *)
Inductive location_arg : Type :=
  | ALocator (l : Locator)
  | NotALocator.

(** The [networks] argument: [None], a list, or any other object. *)
Inductive networks_arg : Type :=
  | NetworksNone
  | NetworksList (l : list string)
  | NetworksOther.

Definition expected_columns : list string :=
  ["Operateur"; "Latitude"; "Longitude"; "2G"; "3G"; "4G"].

Definition check_location (location : location_arg) : result Locator :=
  match location with
  | ALocator l => Ok l
  | NotALocator =>
      Raise (AttributeError "The location provided is not a Locator!")
  end.

Section Construction.

(** The table read from [databases/<csv_name>] when no database is given. *)
Variable local_csv : DataFrame.

Definition check_database (database : option DataFrame)
    : result DataFrame :=
  let database := default local_csv database in
  if bool_decide (expected_columns ⊆ columns database)
  then Ok database
  else Raise (AttributeError
                "Database does not contain the minimum expected columns!").

Definition check_networks (database : DataFrame) (networks : networks_arg)
    : result (list string) :=
  let networks :=
    match networks with
    | NetworksNone => NetworksList ["2G"; "3G"; "4G"]
    | _ => networks
    end in
  match networks with
  | NetworksList l =>
      if bool_decide (l ⊆ columns database)
      then Ok l
      else Raise (AttributeError "Provided networks are not in the database!")
  | _ =>
      Raise (AttributeError "networks provided is expected to be a list!")
  end.

Definition init (location : location_arg) (database : option DataFrame)
    (networks : networks_arg) : result TowerManager :=
  location ← check_location location;
  database ← check_database database;
  networks ← check_networks database networks;
  Ok {| location := location;
        database := database;
        networks := networks;
        tower_indexes := ∅;
        towers_coverage := ∅ |}.

End Construction.

(** * Specification *)

(** A row that sits on one of the four sides of the square. *)
Definition on_boundary (loc : Locator) (area : Z) (t : Tower) : Prop :=
  (Latitude t == latitude loc + inject_Z area
   ∨ Latitude t == latitude loc - inject_Z area
   ∨ Longitude t == longitude loc + inject_Z area
   ∨ Longitude t == longitude loc - inject_Z area)%Q.

(** A radius from which the box holds the row. *)
Definition reach (loc : Locator) (t : Tower) : Z :=
  Z.max (Qfloor (Qabs (latitude loc - Latitude t)))
        (Qfloor (Qabs (longitude loc - Longitude t))) + 1.

(** A radius from which the box holds every row of the table. *)
Definition cover (df : DataFrame) (loc : Locator) : Z :=
  foldr (λ ir r, Z.max (reach loc ir.2) r) 0 (rows df).

(** The depth of recursion that [reduced_database] needs at most. *)
Definition depth (df : DataFrame) (loc : Locator) (area : Z) : nat :=
  S (Z.to_nat (cover df loc - area)).

(** The four conditions under which the construction is refused. *)
Definition refused (local_csv : DataFrame) (location : location_arg)
    (database : option DataFrame) (networks : networks_arg) : Prop :=
  location = NotALocator
  ∨ ¬ expected_columns ⊆ columns (default local_csv database)
  ∨ networks = NetworksOther
  ∨ ∃ l, networks = NetworksList l
         ∧ ¬ l ⊆ columns (default local_csv database).

(** A cell that is equal to [0] or to [1]. *)
Definition zero_or_one (flag : value) : Prop :=
  match flag with
  | Num q => (q == 0 ∨ q == 1)%Q
  | Bool _ => True
  | NaN | Str _ => False
  end.

(** A cell that holds the truth value [b]. *)
Definition flag_is (b : bool) (flag : value) : Prop :=
  match flag with
  | Num q => (q == if b then 1 else 0)%Q
  | Bool b' => b' = b
  | NaN | Str _ => False
  end.

(** What one row does to the best pair of one operator. *)
Definition better (loc : Locator) (operator : Z) (best : dist * Z)
    (ir : Z * Tower) : dist * Z :=
  if decide (Operateur ir.2 = operator) then
    if dist_ltb (distance loc ir.2) best.1
    then (distance loc ir.2, ir.1)
    else best
  else best.

(** The best pair of one operator after the rows [l], from the pair
    [best]. *)
Definition best_of (loc : Locator) (operator : Z) (l : list (Z * Tower))
    (best : dist * Z) : dist * Z :=
  foldl (better loc operator) best l.

(** [index] is the label of a row of [operator] that no row of [operator] is
    nearer to the location than. *)
Definition nearest (loc : Locator) (df : DataFrame) (operator index : Z)
    : Prop :=
  ∃ row,
    (index, row) ∈ rows df
    ∧ Operateur row = operator
    ∧ ∀ ir, ir ∈ rows df → Operateur ir.2 = operator →
            dist_le (distance loc row) (distance loc ir.2).

(** [index] is the label of the first row, in the order of the table, among
    the rows of [operator] that are nearest to the location. *)
Definition first_nearest (loc : Locator) (df : DataFrame)
    (operator index : Z) : Prop :=
  ∃ pre row post,
    rows df = pre ++ (index, row) :: post
    ∧ Operateur row = operator
    ∧ (∀ ir, ir ∈ pre → Operateur ir.2 = operator →
             dist_lt (distance loc row) (distance loc ir.2))
    ∧ (∀ ir, ir ∈ post → Operateur ir.2 = operator →
             dist_le (distance loc row) (distance loc ir.2)).

(** The mapping built for the row of label [index], apart from the report
    it is stored in: every network with the string of its flag. *)
Definition report (df : DataFrame) (index : Z) (nets : list string)
    : result (gmap string value) :=
  loop (λ m net, flag ← at_ df index net;
                 value ← getitem (t_f flag);
                 Ok (<[net := value]> m))
    (Ok ∅) nets.

(** The label and the mapping of one recorded operator. *)
Definition entry_report (operator_code : gmap Z string) (df : DataFrame)
    (nets : list string) (oi : Z * Z)
    : result (string * gmap string value) :=
  label ← getitem (operator_code !! oi.1);
  m ← report df oi.2 nets;
  Ok (label, m).


(** * Sample tables *)

(** A row with the three network columns of the required ones. *)
Definition tower (operator : Z) (lat lon : Q) (g2 g3 g4 : Z) : Tower :=
  {| Operateur := operator; Latitude := lat; Longitude := lon;
     cells := [("2G", Num (inject_Z g2)); ("3G", Num (inject_Z g3));
               ("4G", Num (inject_Z g4))] |}.

(** A table with the required columns and the default index 0, 1, 2, ... *)
Definition table (towers : list Tower) : DataFrame :=
  {| columns := expected_columns;
     rows := imap (λ i t, (Z.of_nat i, t)) towers |}.

(** A location in Paris. *)
Definition paris : Locator := {| latitude := 48.85; longitude := 2.35 |}.

(** A location in Noumea: every tower of [metropolitan] is farther than 100
    from it. *)
Definition noumea : Locator := {| latitude := -22.27; longitude := 166.45 |}.

(** Four operators around Paris and a fifth one in Marseille. *)
Definition five_operators : DataFrame :=
  table [tower 20801 48.9 2.3 1 1 1; tower 20810 48.8 2.4 1 1 0;
         tower 20815 48.85 2.35 0 1 1; tower 20820 49.5 2.0 1 0 1;
         tower 20826 43.3 5.4 1 1 1].

(** Three operators only. *)
Definition three_operators : DataFrame :=
  table [tower 20801 48.9 2.3 1 1 1; tower 20810 48.8 2.4 1 1 0;
         tower 20815 48.85 2.35 0 1 1; tower 20801 49.5 2.0 1 0 1].

(** Four operators around Paris; the tower of Orange holds 2G and 4G but not
    3G. *)
Definition metropolitan : DataFrame :=
  table [tower 20801 48.9 2.3 1 0 1; tower 20810 48.8 2.4 1 1 0;
         tower 20815 48.85 2.35 0 1 1; tower 20820 49.5 2.0 1 0 1].

(** [metropolitan] with a second tower of Free on the site of the first. *)
Definition two_on_site : DataFrame :=
  table [tower 20801 48.9 2.3 1 0 1; tower 20810 48.8 2.4 1 1 0;
         tower 20815 48.85 2.35 0 1 1; tower 20815 48.85 2.35 1 1 1;
         tower 20820 49.5 2.0 1 0 1].

(** A table of display labels for [operator_code]. *)
Definition operator_labels : gmap Z string :=
  list_to_map [(20801, "Orange"); (20810, "SFR"); (20815, "Free");
               (20820, "Bouygue")].

(** The instance that [__init__] builds with the default networks. *)
Definition manager (loc : Locator) (df : DataFrame) : TowerManager :=
  {| location := loc; database := df; networks := ["2G"; "3G"; "4G"];
     tower_indexes := ∅; towers_coverage := ∅ |}.

(** An instance that holds, for each operator of [metropolitan], the label
    of its tower. *)
Definition recorded : TowerManager :=
  {| location := paris;
     database := metropolitan;
     networks := ["2G"; "3G"; "4G"];
     tower_indexes := {[20801 := 0; 20810 := 1; 20815 := 2; 20820 := 3]};
     towers_coverage := ∅ |}.

(** [recorded] with the report of a former run under a label that no
    recorded operator has. *)
Definition reported : TowerManager :=
  {| location := paris;
     database := metropolitan;
     networks := ["2G"; "3G"; "4G"];
     tower_indexes := {[20801 := 0; 20810 := 1; 20815 := 2; 20820 := 3]};
     towers_coverage := {["Telco" := {["2G" := Str "true"]}]} |}.

(** A location on the equator and a table whose first row is far from it
    and whose last row, the only one of its operator, is farther than 100
    but nearer than the first. *)
Definition equator : Locator := {| latitude := 0; longitude := 0 |}.

Definition scattered : DataFrame :=
  table [tower 20801 0 170 1 1 1; tower 20801 0 1 1 0 1;
         tower 20810 1 0 1 1 0; tower 20815 0 (-1) 0 1 1;
         tower 20820 80 80 1 0 1].

(** The rows of [scattered] nearer than 81 with the label 0, which none of
    them has, recorded for the operator of the last row. *)
Definition unreachable : TowerManager :=
  {| location := equator;
     database := box scattered equator 81;
     networks := ["2G"];
     tower_indexes := {[20820 := 0]};
     towers_coverage := ∅ |}.

(** An operator recorded that [operator_labels] does not know. *)
Definition unlabelled : TowerManager :=
  {| location := paris;
     database := five_operators;
     networks := ["2G"];
     tower_indexes := {[20826 := 4]};
     towers_coverage := ∅ |}.

(** The missing value in the 3G cell of the tower recorded for Orange. *)
Definition missing_3G : TowerManager :=
  {| location := paris;
     database :=
       {| columns := expected_columns;
          rows := [(0, {| Operateur := 20801; Latitude := 48.9;
                          Longitude := 2.3;
                          cells := [("2G", Num 1); ("3G", NaN);
                                    ("4G", Num 1)] |})] |};
     networks := ["2G"; "3G"; "4G"];
     tower_indexes := {[20801 := 0]};
     towers_coverage := ∅ |}.

(** * Properties *)

(** ** Comparison *)

Lemma ltb_lt (x y : Q) : ltb x y = true ↔ (x < y)%Q.
Proof.
  unfold ltb. rewrite negb_true_iff, <- not_true_iff_false, Qle_bool_iff.
  split; [apply Qnot_le_lt | apply Qlt_not_le].
Qed.

Lemma ltb_ge (x y : Q) : ltb x y = false ↔ (y <= x)%Q.
Proof.
  rewrite <- not_true_iff_false, ltb_lt.
  split; [apply Qnot_lt_le | apply Qle_not_lt].
Qed.

Lemma dist_ltb_lt (d1 d2 : dist) : dist_ltb d1 d2 = true ↔ dist_lt d1 d2.
Proof. apply ltb_lt. Qed.

Lemma dist_ltb_ge (d1 d2 : dist) : dist_ltb d1 d2 = false ↔ dist_le d2 d1.
Proof. apply ltb_ge. Qed.

(** The comparison of two distances by their radicands is the comparison of
    the square roots. *)
Lemma dist_ltb_real (d1 d2 : dist) :
  (0 <= radicand d1)%Q → (0 <= radicand d2)%Q →
  dist_ltb d1 d2 = true ↔ Rdefinitions.Rlt (real d1) (real d2).
Proof.
  intros H1 H2. unfold dist_ltb, real. rewrite ltb_lt.
  apply Qreals.Qle_Rle in H1, H2. rewrite RMicromega.Q2R_0 in H1, H2.
  split.
  - intros Hlt%Qreals.Qlt_Rlt. apply R_sqrt.sqrt_lt_1_alt. split; assumption.
  - intros Hlt. apply Qreals.Rlt_Qlt. by apply R_sqrt.sqrt_lt_0_alt in Hlt.
Qed.

(** A literal read as a distance stands for itself. *)
Lemma dist_of_real (q : Q) :
  (0 <= q)%Q → real (dist_of q) = Rdefinitions.Q2R q.
Proof.
  intros H%Qreals.Qle_Rle. rewrite RMicromega.Q2R_0 in H.
  unfold real, dist_of. simpl. rewrite Qreals.Q2R_mult.
  by apply R_sqrt.sqrt_square.
Qed.

(** The radicand of the distance to a row is a sum of two squares. *)
Lemma distance_nonneg (loc : Locator) (row : Tower) :
  (0 <= radicand (distance loc row))%Q.
Proof.
  assert (Hsq : ∀ x : Q, (0 <= x * x)%Q).
  { intros x. destruct (Qlt_le_dec x 0) as [Hx | Hx].
    - assert (Hneg : (0 <= (- x) * (- x))%Q)
        by (apply Qmult_le_0_compat; lra).
      assert (Heq : (x * x == (- x) * (- x))%Q) by ring.
      by rewrite Heq.
    - by apply Qmult_le_0_compat. }
  unfold distance. simpl.
  pose proof (Hsq (latitude loc - Latitude row)%Q).
  pose proof (Hsq (longitude loc - Longitude row)%Q). lra.
Qed.

(** ** The bounding box *)

(** The mask holds exactly for the rows strictly inside the square. *)
Lemma in_box_spec (loc : Locator) (area : Z) (t : Tower) :
  in_box loc area t = true ↔
  (latitude loc - inject_Z area < Latitude t
   ∧ Latitude t < latitude loc + inject_Z area
   ∧ longitude loc - inject_Z area < Longitude t
   ∧ Longitude t < longitude loc + inject_Z area)%Q.
Proof.
  unfold in_box. rewrite !andb_true_iff, !ltb_lt. tauto.
Qed.

Lemma elem_of_box (df : DataFrame) (loc : Locator) (area : Z)
    (ir : Z * Tower) :
  ir ∈ rows (box df loc area) ↔ in_box loc area ir.2 = true ∧ ir ∈ rows df.
Proof. unfold box; simpl. by rewrite list_elem_of_filter. Qed.

Lemma box_sublist (df : DataFrame) (loc : Locator) (area : Z) :
  rows (box df loc area) `sublist_of` rows df.
Proof. unfold box; simpl. apply sublist_filter. Qed.

Lemma operators_box (df : DataFrame) (loc : Locator) (area : Z) :
  operators (box df loc area) ⊆ operators df.
Proof.
  intros op. unfold operators. rewrite !elem_of_list_to_set, !list_elem_of_fmap.
  intros (ir & -> & Hir). apply elem_of_box in Hir. exists ir. tauto.
Qed.

Lemma inject_Z_le (a b : Z) : a ≤ b → (inject_Z a <= inject_Z b)%Q.
Proof. intros H. rewrite <- Zle_Qle. exact H. Qed.

Lemma in_box_mono (loc : Locator) (r1 r2 : Z) (t : Tower) :
  r1 ≤ r2 → in_box loc r1 t = true → in_box loc r2 t = true.
Proof.
  intros Hr%inject_Z_le. rewrite !in_box_spec.
  intros (H1 & H2 & H3 & H4). repeat split; lra.
Qed.

Lemma in_box_boundary (loc : Locator) (area : Z) (t : Tower) :
  on_boundary loc area t → in_box loc area t = false.
Proof.
  intros Hb. apply not_true_iff_false. intros Hin.
  apply in_box_spec in Hin. destruct Hin as (H1 & H2 & H3 & H4).
  destruct Hb as [Hb | [Hb | [Hb | Hb]]]; rewrite Hb in *; lra.
Qed.

(** C6: a tower whose latitude is exactly [latitude + area], or which lies on
    any other side of the bounding box, is not in the box-filtered table: all
    four comparisons of the mask are strict. *)
Theorem box_excludes_boundary (df : DataFrame) (loc : Locator) (area : Z)
    (index : Z) (t : Tower) :
  on_boundary loc area t → (index, t) ∉ rows (box df loc area).
Proof.
  intros Hb [Hin _]%elem_of_box. simpl in Hin.
  by rewrite in_box_boundary in Hin.
Qed.

(** C8: a row inside the box of radius [r1] is inside the box of every
    radius [r2] with [r1 <= r2]. *)
Theorem box_monotone (df : DataFrame) (loc : Locator) (r1 r2 : Z)
    (ir : Z * Tower) :
  r1 ≤ r2 → ir ∈ rows (box df loc r1) → ir ∈ rows (box df loc r2).
Proof.
  intros Hr. rewrite !elem_of_box. intros [Hin Hdf].
  split; [eapply in_box_mono; eassumption | exact Hdf].
Qed.

(** ** Growth of the box *)

Lemma Qabs_lt_floor (q : Q) (n m : Z) :
  Z.max (Qfloor (Qabs q)) m + 1 ≤ n → (Qabs q < inject_Z n)%Q.
Proof.
  intros H. eapply Qlt_le_trans; [apply Qlt_floor |].
  apply inject_Z_le. lia.
Qed.

Lemma in_box_reach (loc : Locator) (area : Z) (t : Tower) :
  reach loc t ≤ area → in_box loc area t = true.
Proof.
  unfold reach. intros H. apply in_box_spec.
  assert (Hlat : (Qabs (latitude loc - Latitude t) < inject_Z area)%Q).
  { eapply Qabs_lt_floor. exact H. }
  assert (Hlon : (Qabs (longitude loc - Longitude t) < inject_Z area)%Q).
  { eapply Qabs_lt_floor. rewrite Z.max_comm. exact H. }
  apply Qabs_Qlt_condition in Hlat, Hlon.
  destruct Hlat, Hlon. repeat split; lra.
Qed.

Lemma reach_le_cover (df : DataFrame) (loc : Locator) (ir : Z * Tower) :
  ir ∈ rows df → reach loc ir.2 ≤ cover df loc.
Proof.
  unfold cover. induction (rows df) as [|x l IH]; simpl.
  - intros Hx. inversion Hx.
  - intros [-> | Hx]%elem_of_cons; [lia |]. specialize (IH Hx). lia.
Qed.

Lemma filter_all {A} (P : A → Prop) `{!∀ x, Decision (P x)} (l : list A) :
  (∀ x, x ∈ l → P x) → filter P l = l.
Proof.
  induction l as [|x l IH]; intros Hall; [done |].
  rewrite filter_cons_True by (apply Hall; left).
  f_equal. apply IH. intros y Hy. apply Hall. by right.
Qed.

(** From the covering radius on, the box is the whole table. *)
Lemma box_cover (df : DataFrame) (loc : Locator) (area : Z) :
  cover df loc ≤ area → box df loc area = df.
Proof.
  intros H. destruct df as [cols rs]. unfold box; simpl. f_equal.
  apply filter_all. intros ir Hir. apply in_box_reach.
  etrans; [apply (reach_le_cover {| columns := cols; rows := rs |}) |]; done.
Qed.

(** What [reduced_database] returns is the box of the first radius, from
    [area] on, that holds four operators. *)
Lemma reduced_database_Some (fuel : nat) (df : DataFrame) (loc : Locator)
    (area : Z) (ret : DataFrame) :
  reduced_database fuel df loc area = Some ret →
  ∃ k : nat,
    (k < fuel)%nat
    ∧ ret = box df loc (area + Z.of_nat k)
    ∧ (4 ≤ size (operators ret))%nat
    ∧ ∀ j : nat, (j < k)%nat → (size (operators (box df loc (area + Z.of_nat j))) < 4)%nat.
Proof.
  revert area. induction fuel as [|fuel IH]; intros area; simpl; [done |].
  case_bool_decide as Hsz.
  - intros (k & Hk & -> & H4 & Hlt)%IH. exists (S k).
    replace (area + Z.of_nat (S k)) with (area + 1 + Z.of_nat k) by lia.
    repeat split; [lia | done |].
    intros [|j] Hj.
    + by rewrite Z.add_0_r.
    + replace (area + Z.of_nat (S j)) with (area + 1 + Z.of_nat j) by lia. apply Hlt. lia.
  - intros [= <-]. exists 0%nat. rewrite Z.add_0_r.
    repeat split; [lia | lia | intros j Hj; lia].
Qed.

(** The table returned holds no row on a side of the last box. *)
Lemma reduced_database_excludes_boundary (fuel : nat) (df : DataFrame)
    (loc : Locator) (area : Z) (ret : DataFrame) :
  reduced_database fuel df loc area = Some ret →
  ∃ k : nat,
    ret = box df loc (area + Z.of_nat k)
    ∧ ∀ index t, on_boundary loc (area + Z.of_nat k) t →
                 (index, t) ∉ rows ret.
Proof.
  intros (k & _ & -> & _)%reduced_database_Some. exists k.
  split; [done |]. intros index t Hb [Hin _]%elem_of_box. simpl in Hin.
  by rewrite in_box_boundary in Hin.
Qed.

(** With four operators in the table, recursion of depth [depth] is enough. *)
Lemma reduced_database_terminates (fuel : nat) (df : DataFrame)
    (loc : Locator) (area : Z) :
  (4 ≤ size (operators df))%nat →
  (depth df loc area ≤ fuel)%nat →
  is_Some (reduced_database fuel df loc area).
Proof.
  intros H4. unfold depth. revert area.
  induction fuel as [|fuel IH]; intros area Hfuel; [lia |]. simpl.
  case_bool_decide as Hsz; [| by eexists].
  apply IH.
  destruct (decide (cover df loc ≤ area)) as [Hc | Hc].
  - rewrite (box_cover _ _ _ Hc) in Hsz. lia.
  - lia.
Qed.

(** More fuel does not change a result. *)
Lemma reduced_database_fuel (fuel fuel' : nat) (df : DataFrame)
    (loc : Locator) (area : Z) (ret : DataFrame) :
  reduced_database fuel df loc area = Some ret →
  (fuel ≤ fuel')%nat →
  reduced_database fuel' df loc area = Some ret.
Proof.
  revert fuel' area. induction fuel as [|fuel IH]; intros fuel' area; [done |].
  destruct fuel' as [|fuel']; [lia |]. simpl.
  case_bool_decide; [| done]. intros Hret Hle. apply IH; [done | lia].
Qed.

(** ** reduced_database *)

(** C1 as amended: with four distinct operators or more in the table,
    [reduced_database] returns from every recursion depth above [depth], and
    the table returned is a box of the given table that holds four distinct
    operators at least; it holds every operator when the table has exactly
    four. *)
Theorem reduced_database_four_operators (df : DataFrame) (loc : Locator)
    (area : Z) :
  (4 ≤ size (operators df))%nat →
  ∃ ret : DataFrame,
    (∀ fuel, (depth df loc area ≤ fuel)%nat →
             reduced_database fuel df loc area = Some ret)
    ∧ (∃ k : nat, ret = box df loc (area + Z.of_nat k))
    ∧ (4 ≤ size (operators ret))%nat
    ∧ (size (operators df) = 4%nat → operators ret = operators df).
Proof.
  intros H4.
  destruct (reduced_database_terminates (depth df loc area) df loc area H4)
    as [ret Hret]; [done |].
  exists ret. split; [| split; [| split]].
  - intros fuel Hfuel. eapply reduced_database_fuel; eassumption.
  - apply reduced_database_Some in Hret as (k & _ & -> & _). by exists k.
  - by apply reduced_database_Some in Hret as (k & _ & _ & Hsz & _).
  - intros Heq. apply reduced_database_Some in Hret as (k & _ & -> & Hsz & _).
    apply set_subseteq_size_eq; [apply operators_box | lia].
Qed.

Lemma reduced_database_four_operators_witness :
  (4 ≤ size (operators five_operators))%nat
  ∧ ∃ ret : DataFrame,
      (∀ fuel, (depth five_operators paris 1 ≤ fuel)%nat →
               reduced_database fuel five_operators paris 1 = Some ret)
      ∧ (∃ k : nat, ret = box five_operators paris (1 + Z.of_nat k))
      ∧ (4 ≤ size (operators ret))%nat
      ∧ (size (operators five_operators) = 4%nat →
         operators ret = operators five_operators).
Proof.
  assert (H4 : (4 ≤ size (operators five_operators))%nat)
    by (vm_compute; lia).
  split; [exact H4 |].
  exact (reduced_database_four_operators five_operators paris 1 H4).
Defined.

(** C1 as stated fails: with five operators in the table, the first box that
    holds four of them is returned, and the fifth operator has no row in
    it. *)
Lemma reduced_database_misses_operator :
  (4 ≤ size (operators five_operators))%nat
  ∧ ¬ ∃ fuel ret,
        reduced_database fuel five_operators paris 1 = Some ret
        ∧ operators five_operators ⊆ operators ret.
Proof.
  split; [vm_compute; lia |].
  intros (fuel & ret & Hret & Hsub).
  assert (H1 : reduced_database 1 five_operators paris 1
               = Some (box five_operators paris 1)) by (vm_compute; done).
  destruct fuel as [|fuel]; [done |].
  apply (reduced_database_fuel 1 (S fuel)) in H1; [| lia].
  rewrite H1 in Hret. injection Hret as <-.
  assert (Hin : 20826 ∈ operators five_operators)
    by (apply (bool_decide_unpack _); vm_compute; done).
  apply Hsub in Hin. revert Hin.
  apply (bool_decide_unpack _). vm_compute. done.
Qed.

(** With fewer than four operators in the table no box holds four. *)
Lemma reduced_database_None (fuel : nat) (df : DataFrame) (loc : Locator)
    (area : Z) :
  (size (operators df) < 4)%nat → reduced_database fuel df loc area = None.
Proof.
  intros Hlt. revert area. induction fuel as [|fuel IH]; intros area; [done |].
  simpl. rewrite bool_decide_eq_true_2; [apply IH |].
  eapply Nat.le_lt_trans; [| exact Hlt].
  apply subseteq_size, operators_box.
Qed.

(** C4 as amended: [reduced_database] has no cap on the radius and raises no
    error of its own; with fewer than four distinct operators in the table
    it returns nothing, from any first radius and at any depth of
    recursion. *)
Theorem reduced_database_unbounded (df : DataFrame) (loc : Locator) :
  (size (operators df) < 4)%nat →
  ∀ (fuel : nat) (area : Z), reduced_database fuel df loc area = None.
Proof. intros Hlt fuel area. by apply reduced_database_None. Qed.

Lemma reduced_database_unbounded_witness :
  (size (operators three_operators) < 4)%nat
  ∧ reduced_database 1000 three_operators paris 1 = None.
Proof.
  assert (Hlt : (size (operators three_operators) < 4)%nat)
    by (vm_compute; lia).
  split; [exact Hlt |].
  exact (reduced_database_unbounded three_operators paris Hlt 1000%nat 1).
Defined.

(** C4 as stated fails: on a table of three operators there is no depth at
    which the recursion ends, be it with a table or with an error. *)
Lemma reduced_database_no_cap :
  (size (operators three_operators) < 4)%nat
  ∧ ¬ ∃ fuel outcome,
        reduced_database fuel three_operators paris 1 = Some outcome.
Proof.
  assert (Hlt : (size (operators three_operators) < 4)%nat)
    by (vm_compute; lia).
  split; [exact Hlt |].
  intros (fuel & outcome & Hret).
  by rewrite reduced_database_None in Hret.
Qed.

(** ** The bounding box, on the samples *)

Lemma box_excludes_boundary_witness :
  on_boundary paris 1 (tower 20820 49.85 2.0 1 0 1)
  ∧ (3, tower 20820 49.85 2.0 1 0 1)
      ∉ rows (box (table [tower 20801 48.9 2.3 1 1 1;
                          tower 20810 48.8 2.4 1 1 0;
                          tower 20815 48.85 2.35 0 1 1;
                          tower 20820 49.85 2.0 1 0 1]) paris 1).
Proof.
  assert (Hb : on_boundary paris 1 (tower 20820 49.85 2.0 1 0 1))
    by (left; reflexivity).
  split; [exact Hb |].
  exact (box_excludes_boundary _ paris 1 3 _ Hb).
Defined.

Lemma box_monotone_witness :
  1 ≤ 2
  ∧ (0, tower 20801 48.9 2.3 1 1 1) ∈ rows (box five_operators paris 1)
  ∧ (0, tower 20801 48.9 2.3 1 1 1) ∈ rows (box five_operators paris 2).
Proof.
  assert (Hr : 1 ≤ 2) by lia.
  assert (Hin : (0, tower 20801 48.9 2.3 1 1 1)
                  ∈ rows (box five_operators paris 1))
    by (apply (bool_decide_unpack _); vm_compute; done).
  split; [exact Hr |]. split; [exact Hin |].
  exact (box_monotone five_operators paris 1 2 _ Hr Hin).
Defined.

(** ** location_coverage and the stored table *)

Lemma locate_closest_towers_frame (self self' : TowerManager) :
  locate_closest_towers self = Ok self' →
  location self' = location self
  ∧ database self' = database self
  ∧ networks self' = networks self
  ∧ towers_coverage self' = towers_coverage self.
Proof.
  unfold locate_closest_towers.
  destruct (closest _ _) as [minimums | e]; simpl; [| done].
  by intros [= <-].
Qed.

Lemma find_towers_coverage_frame (operator_code : gmap Z string)
    (self self' : TowerManager) :
  find_towers_coverage operator_code self = Ok self' →
  location self' = location self
  ∧ database self' = database self
  ∧ networks self' = networks self
  ∧ tower_indexes self' = tower_indexes self.
Proof.
  unfold find_towers_coverage.
  destruct (loop _ _ _) as [coverage | e]; simpl; [| done].
  by intros [= <-].
Qed.

(** C5 as amended: [location_coverage] stores the table that
    [reduced_database] returns in place of the table held before; the table
    held after the call is a box of the former one, its rows are rows of the
    former one in the same order and its columns are the same; the location
    and the networks are not changed. *)
Theorem location_coverage_database (operator_code : gmap Z string)
    (fuel : nat) (self self' : TowerManager) :
  location_coverage operator_code fuel self = Some (Ok self') →
  reduced_database fuel (database self) (location self) 1
    = Some (database self')
  ∧ (∃ k : nat,
       database self' = box (database self) (location self) (1 + Z.of_nat k))
  ∧ rows (database self') `sublist_of` rows (database self)
  ∧ columns (database self') = columns (database self)
  ∧ location self' = location self
  ∧ networks self' = networks self.
Proof.
  unfold location_coverage.
  destruct (reduced_database _ _ _ _) as [ret |] eqn:Hret; [| done].
  intros [= Hrun].
  destruct (locate_closest_towers _) as [self1 | e] eqn:H1; simpl in Hrun;
    [| done].
  apply locate_closest_towers_frame in H1 as (Hl1 & Hd1 & Hn1 & _).
  apply find_towers_coverage_frame in Hrun as (Hl2 & Hd2 & Hn2 & _).
  simpl in *. rewrite Hl2, Hd2, Hn2, Hl1, Hd1, Hn1.
  apply reduced_database_Some in Hret as Hbox.
  destruct Hbox as (k & _ & -> & _).
  split; [done |]. split; [by exists k |]. split; [apply box_sublist |].
  done.
Qed.

Lemma location_coverage_database_witness :
  ∃ self' : TowerManager,
    location_coverage operator_labels 1 (manager paris five_operators)
      = Some (Ok self')
    ∧ rows (database self') `sublist_of` rows five_operators.
Proof.
  eexists. split; [vm_compute; reflexivity |].
  eapply (location_coverage_database operator_labels 1
            (manager paris five_operators)).
  vm_compute. reflexivity.
Defined.

(** C5 as stated fails: after the call the instance holds the four rows
    around Paris, not the five rows it held before. *)
Lemma location_coverage_replaces_database :
  ∃ self' : TowerManager,
    location_coverage operator_labels 1 (manager paris five_operators)
      = Some (Ok self')
    ∧ database self' ≠ database (manager paris five_operators).
Proof.
  eexists. split; [vm_compute; reflexivity |].
  intros Heq. apply (f_equal (λ df, length (rows df))) in Heq.
  vm_compute in Heq. discriminate.
Qed.

(** ** __init__ *)

Lemma default_networks_expected (cols : list string) :
  expected_columns ⊆ cols → ["2G"; "3G"; "4G"] ⊆ cols.
Proof.
  intros Hsub net Hnet. apply Hsub. unfold expected_columns.
  rewrite !elem_of_cons in Hnet. rewrite !elem_of_cons.
  destruct Hnet as [-> | [-> | [-> | Hnil]]]; [tauto | tauto | tauto |].
  inversion Hnil.
Qed.

Lemma init_raises (local_csv : DataFrame) (location : location_arg)
    (database : option DataFrame) (networks : networks_arg) :
  (∃ msg, init local_csv location database networks
          = Raise (AttributeError msg))
  ↔ refused local_csv location database networks.
Proof.
  unfold init, refused, check_database, check_networks.
  destruct location as [l |]; simpl; cycle 1.
  { split; [by left | by eexists]. }
  case_bool_decide as Hcols; simpl; cycle 1.
  { split; [by right; left | by eexists]. }
  destruct networks as [| nets |]; simpl.
  - rewrite bool_decide_eq_true_2 by by apply default_networks_expected.
    simpl. split; [by intros [? ?] |].
    intros [? | [? | [? | (? & ? & _)]]]; done.
  - case_bool_decide as Hnets; simpl.
    + split; [by intros [? ?] |].
      intros [? | [? | [? | (? & [= <-] & ?)]]]; done.
    + split; [| by eexists]. intros _. right; right; right. by exists nets.
  - split; [| by eexists]. intros _. by right; right; left.
Qed.

Lemma init_error_kind (local_csv : DataFrame) (location : location_arg)
    (database : option DataFrame) (networks : networks_arg) (e : exn) :
  init local_csv location database networks = Raise e →
  ∃ msg, e = AttributeError msg.
Proof.
  unfold init, check_database, check_networks.
  destruct location; simpl; [| intros [= <-]; by eexists].
  case_bool_decide; simpl; [| intros [= <-]; by eexists].
  destruct networks as [| nets |]; simpl.
  - case_bool_decide; simpl; [done | intros [= <-]; by eexists].
  - case_bool_decide; simpl; [done | intros [= <-]; by eexists].
  - intros [= <-]; by eexists.
Qed.

Lemma init_default_networks (local_csv : DataFrame) (l : Locator)
    (database : option DataFrame) :
  expected_columns ⊆ columns (default local_csv database) →
  init local_csv (ALocator l) database NetworksNone
  = Ok (manager l (default local_csv database)).
Proof.
  intros Hcols. unfold init, check_database, check_networks; simpl.
  rewrite bool_decide_eq_true_2 by done. simpl.
  rewrite bool_decide_eq_true_2 by by apply default_networks_expected.
  done.
Qed.

(** C9: the construction raises an error exactly when the location is not a
    [Locator], or a required column is missing from the table, or the
    networks are neither [None] nor a list, or a requested network is not a
    column of the table; the error is an [AttributeError]; and with the
    networks left unspecified, a [Locator] and a table that has the required
    columns, the construction succeeds with the networks 2G, 3G and 4G. *)
Theorem init_spec (local_csv : DataFrame) (location : location_arg)
    (database : option DataFrame) (networks : networks_arg) :
  ((∃ e, init local_csv location database networks = Raise e)
   ↔ refused local_csv location database networks)
  ∧ ((∃ e, init local_csv location database networks = Raise e)
     ↔ ∃ msg, init local_csv location database networks
              = Raise (AttributeError msg))
  ∧ ∀ l : Locator,
      location = ALocator l →
      networks = NetworksNone →
      expected_columns ⊆ columns (default local_csv database) →
      init local_csv location database networks
      = Ok {| location := l;
              database := default local_csv database;
              networks := ["2G"; "3G"; "4G"];
              tower_indexes := ∅;
              towers_coverage := ∅ |}.
Proof.
  assert (Hany : (∃ e, init local_csv location database networks = Raise e)
                 ↔ ∃ msg, init local_csv location database networks
                          = Raise (AttributeError msg)).
  { split; [| intros [msg ->]; by eexists].
    intros [e He]. apply init_error_kind in He as Hmsg.
    destruct Hmsg as [msg ->]. by exists msg. }
  split; [| split; [exact Hany |]].
  - rewrite Hany. apply init_raises.
  - intros l -> -> Hcols. by apply init_default_networks.
Qed.

Lemma init_spec_witness :
  expected_columns ⊆ columns five_operators
  ∧ init three_operators (ALocator paris) (Some five_operators) NetworksNone
    = Ok (manager paris five_operators).
Proof.
  assert (Hcols : expected_columns ⊆ columns five_operators) by done.
  split; [exact Hcols |].
  exact (proj2 (proj2 (init_spec three_operators (ALocator paris)
                         (Some five_operators) NetworksNone))
           paris eq_refl eq_refl Hcols).
Defined.

(** ** Loops that may raise *)

Section Loop.
Context {A B : Type} (f : A → B → result A).

Lemma loop_Raise (e : exn) (l : list B) : loop f (Raise e) l = Raise e.
Proof. induction l as [|b l IH]; [done | exact IH]. Qed.

Lemma loop_cons (a : A) (b : B) (l : list B) :
  loop f (Ok a) (b :: l) = loop f (f a b) l.
Proof. done. Qed.

Lemma loop_app (r : result A) (l1 l2 : list B) :
  loop f r (l1 ++ l2) = loop f (loop f r l1) l2.
Proof. apply foldl_app. Qed.

Lemma loop_Ok_app (r : result A) (l1 l2 : list B) (a : A) :
  loop f r (l1 ++ l2) = Ok a →
  ∃ a1, loop f r l1 = Ok a1 ∧ loop f (Ok a1) l2 = Ok a.
Proof.
  rewrite loop_app. destruct (loop f r l1) as [a1 | e].
  - intros H. by exists a1.
  - by rewrite loop_Raise.
Qed.

(** An invariant of the body is an invariant of the loop. *)
Lemma loop_invariant (P : A → Prop) (l : list B) (a a' : A) :
  (∀ a1 a2 b, b ∈ l → P a1 → f a1 b = Ok a2 → P a2) →
  P a → loop f (Ok a) l = Ok a' → P a'.
Proof.
  revert a. induction l as [|b l IH]; intros a Hf Ha.
  - by intros [= <-].
  - rewrite loop_cons. destruct (f a b) as [a1 | e] eqn:Hb.
    + apply IH; [| eapply Hf; [left | exact Ha | exact Hb]].
      intros a2 a3 b' Hb'. apply Hf. by right.
    + by rewrite loop_Raise.
Qed.

(** A loop whose body raises nothing but [KeyError]. *)
Lemma loop_KeyError (l : list B) (r : result A) (e : exn) :
  (∀ a b e', f a b = Raise e' → e' = KeyError) →
  (∀ e', r = Raise e' → e' = KeyError) →
  loop f r l = Raise e → e = KeyError.
Proof.
  intros Hf. revert r. induction l as [|b l IH]; intros r Hr.
  - apply Hr.
  - destruct r as [a | e']; [rewrite loop_cons | rewrite loop_Raise].
    + apply IH. apply Hf.
    + apply Hr.
Qed.

(** A loop that meets an item on which the body always raises. *)
Lemma loop_fails (l : list B) (b : B) (r : result A) :
  b ∈ l → (∀ a, ∃ e, f a b = Raise e) → ∃ e, loop f r l = Raise e.
Proof.
  intros Hb Hf. revert r. induction l as [|b' l IH]; intros r.
  - inversion Hb.
  - destruct r as [a | e]; [| rewrite loop_Raise; by eexists].
    rewrite loop_cons. apply elem_of_cons in Hb as [<- | Hb].
    + destruct (Hf a) as [e ->]. rewrite loop_Raise. by eexists.
    + by apply IH.
Qed.
End Loop.

(** ** find_towers_coverage *)

Lemma t_f_defined (flag : value) : is_Some (t_f flag) ↔ zero_or_one flag.
Proof.
  destruct flag as [q | | s | [|]]; simpl;
    try (split; [by intros [? ?] | done]); try (split; [done | by eexists]).
  destruct (Qeq_bool q 1) eqn:H1; [apply Qeq_bool_iff in H1 |].
  { split; [by right | by eexists]. }
  destruct (Qeq_bool q 0) eqn:H0; [apply Qeq_bool_iff in H0 |].
  { split; [by left | by eexists]. }
  split; [by intros [? ?] |].
  intros [H | H]; apply Qeq_bool_iff in H; congruence.
Qed.

Lemma t_f_flag (b : bool) (flag : value) :
  flag_is b flag → t_f flag = Some (Str (if b then "true" else "false")).
Proof.
  destruct flag as [q | | s | b']; simpl; [| done | done |].
  - intros Hq. destruct b.
    + apply Qeq_bool_iff in Hq. by rewrite Hq.
    + assert (Hq1 : Qeq_bool q 1 = false).
      { apply not_true_iff_false. rewrite Qeq_bool_iff, Hq. done. }
      apply Qeq_bool_iff in Hq. by rewrite Hq1, Hq.
  - intros ->. by destruct b.
Qed.

Lemma getitem_error {A} (o : option A) (e : exn) :
  getitem o = Raise e → e = KeyError.
Proof. destruct o; simpl; [done | by intros [= <-]]. Qed.

Lemma at_error (df : DataFrame) (index : Z) (col : string) (e : exn) :
  at_ df index col = Raise e → e = KeyError.
Proof.
  unfold at_. destruct (getitem (_ <$> _)) as [t | e'] eqn:Hrow; simpl.
  - apply getitem_error.
  - intros [= <-]. by apply getitem_error in Hrow.
Qed.

(** Case analysis on the first call of a sequence of calls that may raise. *)
Ltac step_bind H :=
  match goal with
  | |- context [mbind _ ?r] =>
      let e := fresh "e" in
      destruct r as [? | e] eqn:H; simpl
  end.

Section CoverageFacts.
Variable operator_code : gmap Z string.

Lemma cover_net_error (df : DataFrame) (operator index : Z)
    (coverage : gmap string (gmap string value)) (net : string) (e : exn) :
  cover_net operator_code df operator index coverage net = Raise e →
  e = KeyError.
Proof.
  unfold cover_net.
  step_bind H1; [| intros [= <-]; by apply at_error in H1].
  step_bind H2; [| intros [= <-]; by apply getitem_error in H2].
  step_bind H3; [| intros [= <-]; by apply getitem_error in H3].
  step_bind H4; [| intros [= <-]; by apply getitem_error in H4].
  done.
Qed.

Lemma cover_operator_error (df : DataFrame) (nets : list string)
    (coverage : gmap string (gmap string value)) (oi : Z * Z) (e : exn) :
  cover_operator operator_code df nets coverage oi = Raise e → e = KeyError.
Proof.
  unfold cover_operator. destruct oi as [operator index].
  step_bind H1; [| intros [= <-]; by apply getitem_error in H1].
  apply loop_KeyError; [| done].
  intros c net e'. apply cover_net_error.
Qed.

Lemma find_towers_coverage_error (self : TowerManager) (e : exn) :
  find_towers_coverage operator_code self = Raise e → e = KeyError.
Proof.
  unfold find_towers_coverage.
  step_bind H1; [done |]. intros [= <-]. revert H1.
  apply loop_KeyError; [| done].
  intros c oi e'. apply cover_operator_error.
Qed.

(** A network whose cell is not [0] or [1] stops the projection of its
    operator. *)
Lemma cover_operator_partial (df : DataFrame) (nets : list string)
    (coverage : gmap string (gmap string value)) (operator index : Z)
    (net : string) (flag : value) :
  net ∈ nets →
  at_ df index net = Ok flag →
  ¬ zero_or_one flag →
  ∃ e, cover_operator operator_code df nets coverage (operator, index)
       = Raise e.
Proof.
  intros Hnet Hat Hflag. unfold cover_operator.
  step_bind H1; [| by eexists].
  apply (loop_fails _ _ net); [done |].
  intros c. unfold cover_net. rewrite Hat. simpl.
  destruct (t_f flag) as [v |] eqn:Htf; simpl; [| by eexists].
  exfalso. apply Hflag, t_f_defined. by eexists.
Qed.

(** C10: the table [t_f] is defined on the cells equal to 0 or to 1 and on no
    other; when the row recorded for an operator holds, for one of the
    networks, a cell that is neither 0 nor 1 (a missing value, another
    number, a string), [find_towers_coverage] raises [KeyError] and returns
    no report. *)
Theorem find_towers_coverage_partial (self : TowerManager)
    (operator index : Z) (net : string) (flag : value) :
  tower_indexes self !! operator = Some index →
  net ∈ networks self →
  at_ (database self) index net = Ok flag →
  ¬ zero_or_one flag →
  t_f flag = None
  ∧ (∀ v, is_Some (t_f v) ↔ zero_or_one v)
  ∧ find_towers_coverage operator_code self = Raise KeyError.
Proof.
  intros Hop Hnet Hat Hflag. split; [| split; [apply t_f_defined |]].
  { apply eq_None_not_Some. by rewrite t_f_defined. }
  destruct (find_towers_coverage operator_code self) as [self' | e] eqn:Hrun.
  - exfalso. revert Hrun. unfold find_towers_coverage.
    destruct (loop_fails
                (cover_operator operator_code (database self) (networks self))
                (map_to_list (tower_indexes self)) (operator, index)
                (Ok (towers_coverage self))) as [e He].
    + by apply elem_of_map_to_list.
    + intros c. eapply cover_operator_partial; eassumption.
    + by rewrite He.
  - f_equal. by apply find_towers_coverage_error in Hrun.
Qed.

End CoverageFacts.

Lemma find_towers_coverage_partial_witness :
  tower_indexes missing_3G !! 20801 = Some 0
  ∧ at_ (database missing_3G) 0 "3G" = Ok NaN
  ∧ find_towers_coverage operator_labels missing_3G = Raise KeyError.
Proof.
  assert (Hop : tower_indexes missing_3G !! 20801 = Some 0) by done.
  assert (Hat : at_ (database missing_3G) 0 "3G" = Ok NaN) by done.
  assert (Hnet : "3G" ∈ networks missing_3G)
    by (apply (bool_decide_unpack _); vm_compute; done).
  split; [exact Hop |]. split; [exact Hat |].
  exact (proj2 (proj2 (find_towers_coverage_partial operator_labels
                         missing_3G 20801 0 "3G" NaN Hop Hnet Hat
                         (λ H : zero_or_one NaN, H)))).
Defined.

Section Projection.
Variable operator_code : gmap Z string.

(** One network of an operator leaves the reports of the other labels as
    they are. *)
Lemma cover_net_other (df : DataFrame) (operator index : Z)
    (coverage coverage' : gmap string (gmap string value))
    (net label label' : string) :
  operator_code !! operator = Some label' →
  label ≠ label' →
  cover_net operator_code df operator index coverage net = Ok coverage' →
  coverage' !! label = coverage !! label.
Proof.
  intros Hlabel Hne. unfold cover_net. rewrite Hlabel.
  step_bind H1; [| done]. step_bind H2; [| done]. step_bind H3; [| done].
  intros [= <-]. by rewrite lookup_insert_ne.
Qed.

Lemma cover_operator_other (df : DataFrame) (nets : list string)
    (coverage coverage' : gmap string (gmap string value))
    (operator index : Z) (label label' : string) :
  operator_code !! operator = Some label' →
  label ≠ label' →
  cover_operator operator_code df nets coverage (operator, index)
    = Ok coverage' →
  coverage' !! label = coverage !! label.
Proof.
  intros Hlabel Hne. unfold cover_operator. rewrite Hlabel. simpl.
  apply (loop_invariant _ (λ c, c !! label = coverage !! label)).
  - intros c1 c2 net _ Hc1 Hnet. rewrite <- Hc1.
    eapply cover_net_other; eassumption.
  - by rewrite lookup_insert_ne.
Qed.

(** The report written for an operator whose row holds 2G and 4G but not
    3G. *)
Lemma cover_operator_flags (df : DataFrame)
    (coverage : gmap string (gmap string value)) (operator index : Z)
    (label : string) (g2 g3 g4 : value) :
  operator_code !! operator = Some label →
  at_ df index "2G" = Ok g2 → flag_is true g2 →
  at_ df index "3G" = Ok g3 → flag_is false g3 →
  at_ df index "4G" = Ok g4 → flag_is true g4 →
  ∃ coverage',
    cover_operator operator_code df ["2G"; "3G"; "4G"] coverage
      (operator, index) = Ok coverage'
    ∧ coverage' !! label
      = Some {["2G" := Str "true"; "3G" := Str "false"; "4G" := Str "true"]}.
Proof.
  intros Hlabel Hat2 Hg2 Hat3 Hg3 Hat4 Hg4.
  apply t_f_flag in Hg2, Hg3, Hg4.
  unfold cover_operator, loop, cover_net. rewrite Hlabel. simpl.
  rewrite Hat2. simpl. rewrite Hg2. simpl.
  rewrite lookup_insert_eq. simpl.
  rewrite Hat3. simpl. rewrite Hg3. simpl.
  rewrite lookup_insert_eq. simpl.
  rewrite Hat4. simpl. rewrite Hg4. simpl.
  rewrite lookup_insert_eq. simpl.
  eexists. split; [reflexivity |].
  rewrite lookup_insert_eq. reflexivity.
Qed.
End Projection.

(** C3 as amended: for an operator whose recorded row has the flags 2G set,
    3G not set and 4G set, with the networks 2G, 3G and 4G, the report of
    [find_towers_coverage] holds under the operator's label exactly the
    mapping 2G to ['true'], 3G to ['false'], 4G to ['true']: the values are
    the strings of [t_f], not booleans.  The label is the one of this
    operator alone among the operators recorded. *)
Theorem find_towers_coverage_flags (operator_code : gmap Z string)
    (self self' : TowerManager) (operator index : Z) (label : string)
    (g2 g3 g4 : value) :
  find_towers_coverage operator_code self = Ok self' →
  networks self = ["2G"; "3G"; "4G"] →
  tower_indexes self !! operator = Some index →
  operator_code !! operator = Some label →
  (∀ operator', is_Some (tower_indexes self !! operator') →
                operator_code !! operator' = Some label →
                operator' = operator) →
  at_ (database self) index "2G" = Ok g2 → flag_is true g2 →
  at_ (database self) index "3G" = Ok g3 → flag_is false g3 →
  at_ (database self) index "4G" = Ok g4 → flag_is true g4 →
  towers_coverage self' !! label
  = Some {["2G" := Str "true"; "3G" := Str "false"; "4G" := Str "true"]}.
Proof.
  intros Hrun Hnets Hop Hlabel Hinj Hat2 Hg2 Hat3 Hg3 Hat4 Hg4.
  unfold find_towers_coverage in Hrun. rewrite Hnets in Hrun.
  destruct (loop _ _ _) as [coverage | e] eqn:Hloop; simpl in Hrun; [| done].
  injection Hrun as <-. simpl.
  pose proof (NoDup_fst_map_to_list (tower_indexes self)) as Hnodup.
  apply elem_of_map_to_list, list_elem_of_split in Hop as (l1 & l2 & Hsplit).
  assert (Hl2 : ∀ oi, oi ∈ l2 → oi ∈ map_to_list (tower_indexes self)).
  { intros oi Hoi. rewrite Hsplit. apply elem_of_app. right. by right. }
  rewrite Hsplit in Hloop, Hnodup.
  rewrite fmap_app, fmap_cons in Hnodup.
  apply NoDup_app in Hnodup as (_ & _ & [Hfresh _]%NoDup_cons).
  apply loop_Ok_app in Hloop as (c1 & _ & Hloop). rewrite loop_cons in Hloop.
  destruct (cover_operator_flags operator_code (database self) c1 operator
              index label g2 g3 g4) as (c2 & Hc2 & Hexact); try done.
  rewrite Hc2 in Hloop. revert Hloop.
  apply (loop_invariant _ (λ c, c !! label = Some _)); [| exact Hexact].
  intros a1 a2 [operator' index'] Hin Ha1 Hstep. rewrite <- Ha1.
  destruct (operator_code !! operator') as [label' |] eqn:Hlabel';
    [| by unfold cover_operator in Hstep; rewrite Hlabel' in Hstep].
  eapply cover_operator_other; [exact Hlabel' | | exact Hstep].
  intros <-. apply Hfresh.
  assert (Hsame : operator' = operator).
  { apply Hinj; [| done]. apply Hl2, elem_of_map_to_list in Hin. by eexists. }
  subst operator'. apply list_elem_of_fmap. by exists (operator, index').
Qed.

Lemma operator_labels_Orange (operator : Z) :
  operator_labels !! operator = Some "Orange" → operator = 20801.
Proof.
  unfold operator_labels. simpl. rewrite !lookup_insert, lookup_empty.
  repeat case_decide; congruence.
Qed.

Lemma find_towers_coverage_flags_witness :
  ∃ self' : TowerManager,
    find_towers_coverage operator_labels recorded = Ok self'
    ∧ at_ (database recorded) 0 "2G" = Ok (Num 1)
    ∧ at_ (database recorded) 0 "3G" = Ok (Num 0)
    ∧ at_ (database recorded) 0 "4G" = Ok (Num 1)
    ∧ towers_coverage self' !! "Orange"
      = Some {["2G" := Str "true"; "3G" := Str "false"; "4G" := Str "true"]}.
Proof.
  eexists. split; [vm_compute; reflexivity |].
  split; [reflexivity |]. split; [reflexivity |]. split; [reflexivity |].
  eapply (find_towers_coverage_flags operator_labels recorded _ 20801 0
            "Orange" (Num 1) (Num 0) (Num 1)).
  - vm_compute. reflexivity.
  - reflexivity.
  - reflexivity.
  - reflexivity.
  - intros operator' _ Hcode. by apply operator_labels_Orange.
  - reflexivity.
  - reflexivity.
  - reflexivity.
  - reflexivity.
  - reflexivity.
  - reflexivity.
Defined.

(** C3 as stated fails: the values of the report are strings, and the mapping
    of booleans is not the one stored under the label. *)
Lemma find_towers_coverage_not_bool :
  at_ (database recorded) 0 "2G" = Ok (Num 1)
  ∧ at_ (database recorded) 0 "3G" = Ok (Num 0)
  ∧ at_ (database recorded) 0 "4G" = Ok (Num 1)
  ∧ ∃ self' : TowerManager,
      find_towers_coverage operator_labels recorded = Ok self'
      ∧ towers_coverage self' !! "Orange"
        ≠ Some {["2G" := Bool true; "3G" := Bool false; "4G" := Bool true]}.
Proof.
  split; [reflexivity |]. split; [reflexivity |]. split; [reflexivity |].
  eexists. split; [vm_compute; reflexivity |].
  intros Heq. apply (f_equal (λ o, o ≫= (.!! "2G"))) in Heq.
  vm_compute in Heq. discriminate.
Qed.

(** ** locate_closest_towers *)

Lemma minimums_init_lookup (df : DataFrame) (operator : Z) :
  minimums_init df !! operator
  = if decide (operator ∈ operators df) then Some (dist_of 100, 0) else None.
Proof.
  unfold minimums_init. generalize (operators df).
  apply (set_fold_ind_L
           (λ (m : gmap Z (dist * Z)) (X : gset Z),
              m !! operator
              = if decide (operator ∈ X) then Some (dist_of 100, 0)
                else None)).
  - rewrite lookup_empty. by case_decide.
  - intros x X m Hx IH. rewrite lookup_insert, IH.
    destruct (decide (x = operator)) as [-> | Hne].
    + rewrite decide_True; [done |]. apply elem_of_union_l.
      by apply elem_of_singleton.
    + destruct (decide (operator ∈ X)) as [Hin | Hin].
      * rewrite decide_True; [done |]. by apply elem_of_union_r.
      * rewrite decide_False; [done |].
        intros [Heq%elem_of_singleton | HX]%elem_of_union; congruence.
Qed.

Lemma tower_indexes_lookup (minimums : gmap Z (dist * Z)) (ti : gmap Z Z)
    (operator : Z) :
  map_fold (λ operator values ti, <[operator := values.2]> ti) ti minimums
    !! operator
  = match minimums !! operator with
    | Some values => Some values.2
    | None => ti !! operator
    end.
Proof.
  apply (map_fold_weak_ind
           (λ (r : gmap Z Z) (m : gmap Z (dist * Z)),
              r !! operator
              = match m !! operator with
                | Some values => Some values.2
                | None => ti !! operator
                end)).
  - by rewrite lookup_empty.
  - intros i x m r _ IH. rewrite !lookup_insert. by case_decide.
Qed.

(** One turn of the loop is [better] on every operator. *)
Lemma closer_lookup (loc : Locator) (minimums : gmap Z (dist * Z))
    (ir : Z * Tower) :
  is_Some (minimums !! Operateur ir.2) →
  ∃ minimums',
    closer loc minimums ir = Ok minimums'
    ∧ ∀ operator,
        minimums' !! operator
        = (λ best, better loc operator best ir) <$> minimums !! operator.
Proof.
  destruct ir as [index row]. simpl. intros [best Hbest].
  unfold closer. rewrite Hbest. simpl.
  destruct (dist_ltb (distance loc row) best.1) eqn:Hlt;
    eexists; (split; [reflexivity |]); intros operator; unfold better; simpl.
  - rewrite lookup_insert. case_decide as Hop.
    + subst operator. by rewrite Hbest; simpl; rewrite Hlt.
    + by destruct (minimums !! operator).
  - case_decide as Hop.
    + subst operator. by rewrite Hbest; simpl; rewrite Hlt.
    + by destruct (minimums !! operator).
Qed.

(** The loop is [best_of] on every operator, and it does not raise when
    every operator of the rows is a key. *)
Lemma loop_closer (loc : Locator) (l : list (Z * Tower))
    (minimums : gmap Z (dist * Z)) :
  (∀ ir, ir ∈ l → is_Some (minimums !! Operateur ir.2)) →
  ∃ minimums',
    loop (closer loc) (Ok minimums) l = Ok minimums'
    ∧ ∀ operator,
        minimums' !! operator
        = (λ best, best_of loc operator l best) <$> minimums !! operator.
Proof.
  revert minimums. induction l as [|ir l IH]; intros minimums Hkeys.
  - exists minimums. split; [done |]. intros operator.
    by destruct (minimums !! operator).
  - destruct (closer_lookup loc minimums ir) as (m1 & Hm1 & Hlook1).
    { apply Hkeys. left. }
    destruct (IH m1) as (m2 & Hm2 & Hlook2).
    { intros ir' Hir'. rewrite Hlook1.
      destruct (Hkeys ir') as [best ->]; [by right | by eexists]. }
    exists m2. split.
    + by rewrite loop_cons, Hm1.
    + intros operator. rewrite Hlook2, Hlook1.
      by destruct (minimums !! operator).
Qed.

Lemma elem_of_operators (df : DataFrame) (operator : Z) :
  operator ∈ operators df
  ↔ ∃ ir, ir ∈ rows df ∧ Operateur ir.2 = operator.
Proof.
  unfold operators. rewrite elem_of_list_to_set, list_elem_of_fmap.
  split; intros (ir & H1 & H2); exists ir; done.
Qed.

(** [locate_closest_towers] does not raise, and records for every operator
    of the table the label that [best_of] computes. *)
Lemma locate_closest_towers_spec (self : TowerManager) :
  ∃ self',
    locate_closest_towers self = Ok self'
    ∧ ∀ operator,
        tower_indexes self' !! operator
        = if decide (operator ∈ operators (database self))
          then Some (best_of (location self) operator
                       (rows (database self)) (dist_of 100, 0)).2
          else tower_indexes self !! operator.
Proof.
  unfold locate_closest_towers, closest.
  destruct (loop_closer (location self) (rows (database self))
              (minimums_init (database self))) as (m & -> & Hlook).
  { intros ir Hir. rewrite minimums_init_lookup.
    rewrite decide_True; [by eexists |].
    apply elem_of_operators. by exists ir. }
  simpl. eexists. split; [reflexivity |]. simpl. intros operator.
  rewrite tower_indexes_lookup, Hlook, minimums_init_lookup.
  by case_decide.
Qed.

Lemma best_of_snoc (loc : Locator) (operator : Z) (l : list (Z * Tower))
    (ir : Z * Tower) (best : dist * Z) :
  best_of loc operator (l ++ [ir]) best
  = better loc operator (best_of loc operator l best) ir.
Proof. unfold best_of. by rewrite foldl_app. Qed.


(** The pair kept is the first one or comes from a row of the operator, and
    its distance is below the first one and below the one of every row of
    the operator. *)
Lemma best_of_spec (loc : Locator) (operator : Z) (l : list (Z * Tower))
    (best : dist * Z) :
  dist_le (best_of loc operator l best).1 best.1
  ∧ (∀ ir, ir ∈ l → Operateur ir.2 = operator →
           dist_le (best_of loc operator l best).1 (distance loc ir.2))
  ∧ (best_of loc operator l best = best
     ∨ ∃ ir, ir ∈ l ∧ Operateur ir.2 = operator
             ∧ best_of loc operator l best = (distance loc ir.2, ir.1)).
Proof.
  unfold dist_le. induction l as [|x l IH] using rev_ind.
  - simpl. split; [apply Qle_refl |]. split; [| by left].
    intros ir Hir. inversion Hir.
  - destruct IH as (IH1 & IH2 & IH3). rewrite best_of_snoc.
    set (r := best_of loc operator l best) in *.
    unfold better. case_decide as Hop.
    + destruct (dist_ltb (distance loc x.2) r.1) eqn:Hlt.
      * apply dist_ltb_lt in Hlt. unfold dist_lt in Hlt. cbn [fst].
        split; [lra |]. split.
        -- intros ir [Hir | ->%list_elem_of_singleton]%elem_of_app Hir';
             [specialize (IH2 ir Hir Hir'); lra | lra].
        -- right. exists x. split; [| done]. apply elem_of_app. right.
           by apply list_elem_of_singleton.
      * apply dist_ltb_ge in Hlt. unfold dist_le in Hlt.
        split; [done |]. split.
        -- intros ir [Hir | ->%list_elem_of_singleton]%elem_of_app Hir';
             [by apply IH2 | done].
        -- destruct IH3 as [IH3 | (ir & Hir & Hir' & IH3)]; [by left |].
           right. exists ir. split; [| done]. apply elem_of_app. by left.
    + split; [done |]. split.
      * intros ir [Hir | ->%list_elem_of_singleton]%elem_of_app Hir';
          [by apply IH2 | done].
      * destruct IH3 as [IH3 | (ir & Hir & Hir' & IH3)]; [by left |].
        right. exists ir. split; [| done]. apply elem_of_app. by left.
Qed.

(** Rows that are not nearer than the pair kept do not change it. *)
Lemma best_of_stable (loc : Locator) (operator : Z) (l : list (Z * Tower))
    (best : dist * Z) :
  (∀ ir, ir ∈ l → Operateur ir.2 = operator →
         dist_le best.1 (distance loc ir.2)) →
  best_of loc operator l best = best.
Proof.
  induction l as [|x l IH]; intros Hl; [done |].
  unfold best_of. simpl. fold (best_of loc operator l).
  assert (Hx : better loc operator best x = best).
  { unfold better. case_decide as Hop; [| done].
    rewrite (proj2 (dist_ltb_ge _ _)); [done |]. apply Hl; [left | done]. }
  rewrite Hx. apply IH. intros ir Hir. apply Hl. by right.
Qed.


(** When a row of the operator is nearer than 100, the label recorded is the
    one of a nearest row of the operator. *)
Lemma locate_closest_towers_in_range (self : TowerManager)
    (operator index : Z) (row : Tower) :
  (index, row) ∈ rows (database self) →
  Operateur row = operator →
  dist_lt (distance (location self) row) (dist_of 100) →
  ∃ self' index',
    locate_closest_towers self = Ok self'
    ∧ tower_indexes self' !! operator = Some index'
    ∧ nearest (location self) (database self) operator index'.
Proof.
  intros Hrow Hop Hnear.
  destruct (locate_closest_towers_spec self) as (self' & Hrun & Hlook).
  specialize (Hlook operator). rewrite decide_True in Hlook
    by (apply elem_of_operators; by exists (index, row)).
  destruct (best_of_spec (location self) operator (rows (database self))
              (dist_of 100, 0)) as (_ & Hmin & Hcases).
  exists self'. eexists. split; [exact Hrun |]. split; [exact Hlook |].
  destruct Hcases as [Hsame | ([index' row'] & Hin & Hop' & Hbest)].
  - exfalso. specialize (Hmin (index, row) Hrow Hop). rewrite Hsame in Hmin.
    unfold dist_le, dist_lt in *. simpl in *. lra.
  - rewrite Hbest in Hmin |- *. simpl in *. exists row'.
    split; [done |]. split; [done |]. exact Hmin.
Qed.


(** When no row of the operator is nearer than 100, the label recorded is
    0. *)
Lemma locate_closest_towers_out_of_range (self : TowerManager)
    (operator : Z) :
  operator ∈ operators (database self) →
  (∀ ir, ir ∈ rows (database self) → Operateur ir.2 = operator →
         dist_le (dist_of 100) (distance (location self) ir.2)) →
  ∃ self',
    locate_closest_towers self = Ok self'
    ∧ tower_indexes self' !! operator = Some 0.
Proof.
  intros Hop Hfar.
  destruct (locate_closest_towers_spec self) as (self' & Hrun & Hlook).
  specialize (Hlook operator). rewrite decide_True in Hlook by done.
  exists self'. split; [exact Hrun |].
  by rewrite Hlook, best_of_stable.
Qed.

(** ** The sentinel distance *)

(** Case analysis on the rows of a sample table. *)
Ltac case_rows H :=
  repeat (apply elem_of_cons in H as [H | H]);
  [.. | by apply elem_of_nil in H].

(** C2, on the code: from Noumea the region returned by [reduced_database]
    is the whole of [metropolitan]; every distance is above the first pair
    [(100.0, 0)], no row ever replaces it, and the label recorded for SFR,
    as for every operator, is 0, the label of the tower of Orange, whereas
    the nearest (and only) row of SFR has the label 1. *)
Theorem locate_closest_towers_sentinel :
  reduced_database 200 metropolitan noumea 1 = Some metropolitan
  ∧ ∃ self' : TowerManager,
      locate_closest_towers (manager noumea metropolitan) = Ok self'
      ∧ tower_indexes self'
        = {[20801 := 0; 20810 := 0; 20815 := 0; 20820 := 0]}
      ∧ tower_indexes self' !! 20810 = Some 0
      ∧ nearest noumea metropolitan 20810 1
      ∧ ¬ nearest noumea metropolitan 20810 0.
Proof.
  split; [vm_compute; reflexivity |].
  eexists. split; [vm_compute; reflexivity |].
  split; [vm_compute; reflexivity |]. split; [vm_compute; reflexivity |].
  split.
  - exists (tower 20810 48.8 2.4 1 1 0).
    split; [apply (bool_decide_unpack _); vm_compute; done |].
    split; [done |].
    intros ir Hir Hop. unfold metropolitan, table in Hir. simpl in Hir.
    case_rows Hir; subst ir; simpl in Hop; discriminate.
  - intros (row & Hin & Hop & _).
    unfold metropolitan, table in Hin. simpl in Hin.
    case_rows Hin; simplify_eq.
Qed.

(** C7, on the code: from Noumea, the two towers of Free of [two_on_site]
    are at the same distance, the smallest one among the rows of Free; the
    first of them in the order of the table has the label 2, and the label
    recorded for Free is 0. *)
Theorem locate_closest_towers_tie_sentinel :
  reduced_database 200 two_on_site noumea 1 = Some two_on_site
  ∧ dist_eq (distance noumea (tower 20815 48.85 2.35 0 1 1))
            (distance noumea (tower 20815 48.85 2.35 1 1 1))
  ∧ first_nearest noumea two_on_site 20815 2
  ∧ ∃ self' : TowerManager,
      locate_closest_towers (manager noumea two_on_site) = Ok self'
      ∧ tower_indexes self' !! 20815 = Some 0.
Proof.
  split; [vm_compute; reflexivity |]. split; [reflexivity |]. split.
  - exists [(0, tower 20801 48.9 2.3 1 0 1); (1, tower 20810 48.8 2.4 1 1 0)],
           (tower 20815 48.85 2.35 0 1 1),
           [(3, tower 20815 48.85 2.35 1 1 1);
            (4, tower 20820 49.5 2.0 1 0 1)].
    split; [reflexivity |]. split; [reflexivity |]. split.
    + intros ir Hir Hop. case_rows Hir; subst ir; discriminate.
    + intros ir Hir Hop. case_rows Hir; subst ir; simpl in Hop;
        discriminate.
  - eexists. split; vm_compute; reflexivity.
Qed.

(** * Further properties *)

(** ** reduced_database: the region returned *)

(** A box of a box is the smaller box. *)
Lemma box_box (df : DataFrame) (loc : Locator) (r r' : Z) :
  r' ≤ r → box (box df loc r) loc r' = box df loc r'.
Proof.
  intros Hr. unfold box; simpl. f_equal.
  apply list_filter_filter_l. intros ir. by apply in_box_mono.
Qed.

Lemma box_idem (df : DataFrame) (loc : Locator) (r : Z) :
  box (box df loc r) loc r = box df loc r.
Proof. by apply box_box. Qed.

Lemma operators_box_mono (df : DataFrame) (loc : Locator) (r1 r2 : Z) :
  r1 ≤ r2 → operators (box df loc r1) ⊆ operators (box df loc r2).
Proof.
  intros Hr op. rewrite !elem_of_operators.
  intros (ir & [Hin Hdf]%elem_of_box & Hop). exists ir. split; [| done].
  apply elem_of_box. split; [by eapply in_box_mono | done].
Qed.

(** The first radius, from [area] on, whose box holds four operators is the
    one whose box is returned. *)
Lemma reduced_database_at (fuel : nat) (df : DataFrame) (loc : Locator)
    (area : Z) (k : nat) :
  (k < fuel)%nat →
  (∀ j : nat, (j < k)%nat →
              (size (operators (box df loc (area + Z.of_nat j))) < 4)%nat) →
  (4 ≤ size (operators (box df loc (area + Z.of_nat k))))%nat →
  reduced_database fuel df loc area = Some (box df loc (area + Z.of_nat k)).
Proof.
  revert area k. induction fuel as [|fuel IH]; intros area k Hk Hlt H4;
    [lia |].
  simpl. destruct k as [|k].
  - rewrite Z.add_0_r in H4 |- *. by rewrite bool_decide_eq_false_2 by lia.
  - rewrite bool_decide_eq_true_2.
    + replace (area + Z.of_nat (S k)) with (area + 1 + Z.of_nat k) in * by lia.
      apply IH; [lia | | done].
      intros j Hj. specialize (Hlt (S j)).
      replace (area + Z.of_nat (S j)) with (area + 1 + Z.of_nat j) in Hlt
        by lia.
      apply Hlt. lia.
    + specialize (Hlt 0%nat). rewrite Z.add_0_r in Hlt. apply Hlt. lia.
Qed.

(** X1: the table that [reduced_database] returns is the box of the least
    radius [area + k] whose box holds four distinct operators: its rows are
    exactly the rows of the table strictly inside that square, in the order
    of the table and with their labels, under the same columns, and every
    smaller radius from [area] on holds fewer than four operators. *)
Theorem reduced_database_least_box (fuel : nat) (df : DataFrame)
    (loc : Locator) (area : Z) (ret : DataFrame) :
  reduced_database fuel df loc area = Some ret →
  ∃ k : nat,
    (∀ ir, ir ∈ rows ret
           ↔ ir ∈ rows df ∧ in_box loc (area + Z.of_nat k) ir.2 = true)
    ∧ rows ret `sublist_of` rows df
    ∧ columns ret = columns df
    ∧ (4 ≤ size (operators ret))%nat
    ∧ ∀ j : nat, (j < k)%nat →
        (size (operators (box df loc (area + Z.of_nat j))) < 4)%nat.
Proof.
  intros (k & _ & -> & H4 & Hlt)%reduced_database_Some. exists k.
  split; [| split; [apply box_sublist | done]].
  intros ir. rewrite elem_of_box. tauto.
Qed.

Lemma reduced_database_least_box_witness :
  reduced_database 1 five_operators paris 1 = Some (box five_operators paris 1)
  ∧ ∃ k : nat,
      (∀ ir, ir ∈ rows (box five_operators paris 1)
             ↔ ir ∈ rows five_operators
               ∧ in_box paris (1 + Z.of_nat k) ir.2 = true)
      ∧ rows (box five_operators paris 1) `sublist_of` rows five_operators
      ∧ columns (box five_operators paris 1) = columns five_operators
      ∧ (4 ≤ size (operators (box five_operators paris 1)))%nat
      ∧ ∀ j : nat, (j < k)%nat →
          (size (operators (box five_operators paris (1 + Z.of_nat j))) < 4)%nat.
Proof.
  assert (Hret : reduced_database 1 five_operators paris 1
                 = Some (box five_operators paris 1))
    by (vm_compute; reflexivity).
  split; [exact Hret |].
  exact (reduced_database_least_box 1 five_operators paris 1 _ Hret).
Defined.

Lemma reduced_database_again (fuel : nat) (df : DataFrame)
    (loc : Locator) (area : Z) (ret : DataFrame) :
  reduced_database fuel df loc area = Some ret →
  reduced_database fuel ret loc area = Some ret.
Proof.
  intros (k & Hk & -> & H4 & Hlt)%reduced_database_Some.
  rewrite <- (box_idem df loc (area + Z.of_nat k)) at 2.
  apply reduced_database_at; [done | | by rewrite box_idem].
  intros j Hj. rewrite box_box by lia. by apply Hlt.
Qed.

(** X2: reducing a table that [reduced_database] returned, from the same
    location and the same first radius, returns it again: a second call of
    [location_coverage] finds the table it stored. *)
Theorem reduced_database_idempotent (fuel : nat) (df : DataFrame)
    (loc : Locator) (area : Z) (ret : DataFrame) :
  reduced_database fuel df loc area = Some ret →
  reduced_database fuel ret loc area = Some ret.
Proof. apply reduced_database_again. Qed.

Lemma reduced_database_idempotent_witness :
  reduced_database 200 five_operators paris 1
  = Some (box five_operators paris 1)
  ∧ reduced_database 200 (box five_operators paris 1) paris 1
    = Some (box five_operators paris 1).
Proof.
  assert (Hret : reduced_database 200 five_operators paris 1
                 = Some (box five_operators paris 1))
    by (vm_compute; reflexivity).
  split; [exact Hret |].
  exact (reduced_database_idempotent 200 five_operators paris 1 _ Hret).
Defined.

(** X3: the number of distinct operators in the box does not decrease when
    the radius grows, and a call from a larger first radius returns a table
    that holds every row of the table returned from a smaller one. *)
Theorem reduced_database_area_monotone (fuel fuel' : nat) (df : DataFrame)
    (loc : Locator) (area area' : Z) (ret ret' : DataFrame) :
  area ≤ area' →
  reduced_database fuel df loc area = Some ret →
  reduced_database fuel' df loc area' = Some ret' →
  (∀ r1 r2, r1 ≤ r2 →
            (size (operators (box df loc r1))
             ≤ size (operators (box df loc r2)))%nat)
  ∧ ∀ ir, ir ∈ rows ret → ir ∈ rows ret'.
Proof.
  intros Ha (k & _ & -> & H4 & Hlt)%reduced_database_Some
         (k' & _ & -> & H4' & _)%reduced_database_Some.
  assert (Hsize : ∀ r1 r2, r1 ≤ r2 →
            (size (operators (box df loc r1))
             ≤ size (operators (box df loc r2)))%nat).
  { intros r1 r2 Hr. by apply subseteq_size, operators_box_mono. }
  split; [exact Hsize |].
  assert (Hle : area + Z.of_nat k ≤ area' + Z.of_nat k').
  { destruct (decide (area + Z.of_nat k ≤ area' + Z.of_nat k')) as [| Hn];
      [done |].
    exfalso.
    specialize (Hlt (Z.to_nat (area' + Z.of_nat k' - area))).
    rewrite Z2Nat.id in Hlt by lia.
    replace (area + (area' + Z.of_nat k' - area)) with (area' + Z.of_nat k')
      in Hlt by lia.
    assert (Hj : (Z.to_nat (area' + Z.of_nat k' - area) < k)%nat) by lia.
    specialize (Hlt Hj). lia. }
  intros ir [Hin Hdf]%elem_of_box. apply elem_of_box.
  split; [by eapply in_box_mono | done].
Qed.

Lemma reduced_database_area_monotone_witness :
  1 ≤ 6
  ∧ reduced_database 6 five_operators paris 1
    = Some (box five_operators paris 1)
  ∧ reduced_database 6 five_operators paris 6
    = Some (box five_operators paris 6)
  ∧ ∀ ir, ir ∈ rows (box five_operators paris 1) →
          ir ∈ rows (box five_operators paris 6).
Proof.
  assert (Ha : 1 ≤ 6) by lia.
  assert (H1 : reduced_database 6 five_operators paris 1
               = Some (box five_operators paris 1))
    by (vm_compute; reflexivity).
  assert (H6 : reduced_database 6 five_operators paris 6
               = Some (box five_operators paris 6))
    by (vm_compute; reflexivity).
  split; [exact Ha |]. split; [exact H1 |]. split; [exact H6 |].
  exact (proj2 (reduced_database_area_monotone 6 6 five_operators paris 1 6
                  _ _ Ha H1 H6)).
Defined.

(** ** locate_closest_towers: what is recorded *)


Lemma locate_closest_towers_again (self self' : TowerManager) :
  locate_closest_towers self = Ok self' →
  locate_closest_towers self' = Ok self'.
Proof.
  intros Hrun.
  destruct (locate_closest_towers_spec self) as (s1 & Hs1 & Hlook1).
  rewrite Hrun in Hs1. injection Hs1 as <-.
  destruct (locate_closest_towers_frame _ _ Hrun) as (Hl & Hd & Hn & Hc).
  destruct (locate_closest_towers_spec self') as (s2 & Hs2 & Hlook2).
  rewrite Hs2. f_equal.
  destruct (locate_closest_towers_frame _ _ Hs2) as (Hl2 & Hd2 & Hn2 & Hc2).
  destruct s2 as [l2 d2 n2 ti2 c2], self' as [l1 d1 n1 ti1 c1]. simpl in *.
  subst l2 d2 n2 c2. f_equal.
  apply map_eq. intros operator. rewrite Hlook2, Hlook1, Hl, Hd.
  by case_decide.
Qed.

(** X8: the entries recorded for the operators of the table do not depend on
    what the instance held: locating again on the instance returned changes
    nothing. *)
Theorem locate_closest_towers_idempotent (self self' : TowerManager) :
  locate_closest_towers self = Ok self' →
  locate_closest_towers self' = Ok self'.
Proof. apply locate_closest_towers_again. Qed.

Lemma locate_closest_towers_idempotent_witness :
  ∃ self' : TowerManager,
    locate_closest_towers (manager paris metropolitan) = Ok self'
    ∧ locate_closest_towers self' = Ok self'.
Proof.
  eexists. split; [vm_compute; reflexivity |].
  apply (locate_closest_towers_idempotent (manager paris metropolitan)).
  vm_compute. reflexivity.
Defined.









(** ** find_towers_coverage: the report written *)

Section ReportFacts.
Variable operator_code : gmap Z string.

(** The loop of line 170 on the report of one label builds the mapping of
    [report] and stores it under the label. *)
Lemma loop_cover_net (df : DataFrame) (operator index : Z) (label : string)
    (nets : list string) (coverage : gmap string (gmap string value))
    (m0 : gmap string value) :
  operator_code !! operator = Some label →
  loop (cover_net operator_code df operator index)
    (Ok (<[label := m0]> coverage)) nets
  = (m ← loop (λ m net, flag ← at_ df index net;
                        value ← getitem (t_f flag);
                        Ok (<[net := value]> m)) (Ok m0) nets;
     Ok (<[label := m]> coverage)).
Proof.
  intros Hlabel. revert m0. induction nets as [|net nets IH]; intros m0;
    [done |].
  rewrite !loop_cons. unfold cover_net at 2.
  destruct (at_ df index net) as [flag | e]; simpl;
    [| by rewrite !loop_Raise].
  destruct (t_f flag) as [v |]; simpl; [| by rewrite !loop_Raise].
  rewrite Hlabel. simpl. rewrite lookup_insert_eq. simpl.
  rewrite insert_insert_eq. apply IH.
Qed.

Lemma cover_operator_entry (df : DataFrame) (nets : list string)
    (coverage : gmap string (gmap string value)) (oi : Z * Z) :
  cover_operator operator_code df nets coverage oi
  = (lm ← entry_report operator_code df nets oi;
     Ok (<[lm.1 := lm.2]> coverage)).
Proof.
  destruct oi as [operator index]. unfold cover_operator, entry_report.
  simpl. destruct (operator_code !! operator) as [label |] eqn:Hlabel;
    simpl; [| done].
  rewrite (loop_cover_net df operator index label) by done.
  fold (report df index nets). by destruct (report df index nets).
Qed.

(** The loop of line 163 stores, entry after entry, the mappings of the
    recorded operators under their labels. *)
Lemma loop_cover_operator (df : DataFrame) (nets : list string)
    (es : list (Z * Z)) (coverage coverage' : gmap string (gmap string value)) :
  loop (cover_operator operator_code df nets) (Ok coverage) es = Ok coverage'
  ↔ ∃ lms,
      Forall2 (λ oi lm, entry_report operator_code df nets oi = Ok lm) es lms
      ∧ coverage' = foldl (λ c lm, <[lm.1 := lm.2]> c) coverage lms.
Proof.
  revert coverage. induction es as [|oi es IH]; intros coverage.
  - split.
    + intros [= <-]. exists []. by split.
    + intros (lms & ->%Forall2_nil_inv_l & ->). done.
  - rewrite loop_cons, cover_operator_entry.
    destruct (entry_report operator_code df nets oi) as [lm | e] eqn:Hoi;
      simpl.
    + rewrite IH. split.
      * intros (lms & Hall & ->). exists (lm :: lms). split; [| done].
        by constructor.
      * intros (lms & Hall & ->).
        apply Forall2_cons_inv_l in Hall as (lm' & lms' & Hlm & Hall & ->).
        rewrite Hoi in Hlm. injection Hlm as <-. by exists lms'.
    + rewrite loop_Raise. split; [done |].
      intros (lms & Hall & _).
      apply Forall2_cons_inv_l in Hall as (lm' & lms' & Hlm & _).
      by rewrite Hoi in Hlm.
Qed.

(** Stored one after the other, the last mapping of a label is the one
    kept. *)
Lemma foldl_insert_union (lms : list (string * gmap string value))
    (coverage : gmap string (gmap string value)) :
  foldl (λ c lm, <[lm.1 := lm.2]> c) coverage lms
  = list_to_map (reverse lms) ∪ coverage.
Proof.
  induction lms as [|lm lms IH] using rev_ind.
  - simpl. by rewrite (left_id_L ∅ (∪)).
  - rewrite foldl_app, reverse_snoc. simpl. rewrite IH.
    destruct lm as [label m]. simpl. by rewrite insert_union_l.
Qed.

(** What [report] returns: every network of the list with the string of its
    flag, and nothing else. *)
Lemma loop_report (df : DataFrame) (index : Z) (nets : list string)
    (m0 m : gmap string value) :
  loop (λ m net, flag ← at_ df index net;
                 value ← getitem (t_f flag);
                 Ok (<[net := value]> m)) (Ok m0) nets = Ok m →
  (∀ net, net ∈ nets →
          ∃ flag v, at_ df index net = Ok flag ∧ t_f flag = Some v
                    ∧ m !! net = Some v)
  ∧ (∀ net, net ∉ nets → m !! net = m0 !! net).
Proof.
  revert m0. induction nets as [|n nets IH]; intros m0.
  - intros [= <-]. split; [| done]. intros net Hnet. inversion Hnet.
  - rewrite loop_cons.
    destruct (at_ df index n) as [flag | e] eqn:Hat; simpl;
      [| by rewrite loop_Raise].
    destruct (t_f flag) as [v |] eqn:Htf; simpl; [| by rewrite loop_Raise].
    intros (Hin & Hout)%IH. split.
    + intros net Hnet. destruct (decide (net ∈ nets)) as [Hnets | Hnets];
        [by apply Hin |].
      apply elem_of_cons in Hnet as [-> | Hnet]; [| done].
      exists flag, v. rewrite (Hout n Hnets), lookup_insert_eq. done.
    + intros net Hnet. apply not_elem_of_cons in Hnet as [Hne Hnet].
      by rewrite (Hout net Hnet), lookup_insert_ne.
Qed.

Lemma report_spec (df : DataFrame) (index : Z) (nets : list string)
    (m : gmap string value) :
  report df index nets = Ok m →
  (∀ net, net ∈ nets →
          ∃ flag v, at_ df index net = Ok flag ∧ t_f flag = Some v
                    ∧ m !! net = Some v)
  ∧ (∀ net, net ∉ nets → m !! net = None).
Proof.
  intros (Hin & Hout)%loop_report. split; [done |].
  intros net Hnet. by rewrite (Hout net Hnet).
Qed.


End ReportFacts.

Section ReportTheorems.
Variable operator_code : gmap Z string.

(** The report after a run that returns: the mappings of the recorded
    operators, the last one of a label first, over the report held
    before. *)
Lemma find_towers_coverage_Ok (self self' : TowerManager) :
  find_towers_coverage operator_code self = Ok self'
  ↔ ∃ lms,
      Forall2 (λ oi lm, entry_report operator_code (database self)
                          (networks self) oi = Ok lm)
        (map_to_list (tower_indexes self)) lms
      ∧ self' = {| location := location self;
                   database := database self;
                   networks := networks self;
                   tower_indexes := tower_indexes self;
                   towers_coverage :=
                     list_to_map (reverse lms) ∪ towers_coverage self |}.
Proof.
  unfold find_towers_coverage.
  destruct (loop _ _ _) as [coverage | e] eqn:Hloop; simpl.
  - apply loop_cover_operator in Hloop as (lms & Hall & ->).
    rewrite foldl_insert_union. split.
    + intros [= <-]. by exists lms.
    + intros (lms' & Hall' & ->).
      assert (Hsame : lms' = lms); [| by rewrite Hsame].
      clear -Hall Hall'. revert lms' Hall'.
      induction Hall as [|oi lm es lms Hlm Hall IH]; intros lms' Hall'.
      * by apply Forall2_nil_inv_l in Hall' as ->.
      * apply Forall2_cons_inv_l in Hall' as (lm' & lms'' & Hlm' & Hall' & ->).
        rewrite Hlm in Hlm'. injection Hlm' as <-. f_equal. by apply IH.
  - split; [done |]. intros (lms & Hall & _).
    assert (Hok : loop (cover_operator operator_code (database self)
                          (networks self)) (Ok (towers_coverage self))
                    (map_to_list (tower_indexes self))
                  = Ok (foldl (λ c lm, <[lm.1 := lm.2]> c)
                          (towers_coverage self) lms)).
    { apply loop_cover_operator. by exists lms. }
    by rewrite Hok in Hloop.
Qed.

(** The entry of the report of a label that belongs to one recorded operator
    only. *)
Lemma find_towers_coverage_label (self self' : TowerManager)
    (operator index : Z) (label : string) :
  find_towers_coverage operator_code self = Ok self' →
  tower_indexes self !! operator = Some index →
  operator_code !! operator = Some label →
  (∀ operator', is_Some (tower_indexes self !! operator') →
                operator_code !! operator' = Some label →
                operator' = operator) →
  ∃ m, report (database self) index (networks self) = Ok m
       ∧ towers_coverage self' !! label = Some m.
Proof.
  intros (lms & Hall & ->)%find_towers_coverage_Ok Hop Hlabel Hinj. simpl.
  apply elem_of_map_to_list, list_elem_of_lookup in Hop as [i Hi].
  destruct (Forall2_lookup_l _ _ _ _ _ Hall Hi) as (lm & Hlm & Hentry).
  unfold entry_report in Hentry. simpl in Hentry. rewrite Hlabel in Hentry.
  simpl in Hentry.
  destruct (report (database self) index (networks self)) as [m | e] eqn:Hm;
    simpl in Hentry; [| done].
  injection Hentry as <-. exists m. split; [done |].
  apply lookup_union_Some_l. apply elem_of_list_to_map_1'.
  - intros m' Hin. apply (proj1 (elem_of_reverse _ _)) in Hin.
    apply list_elem_of_lookup in Hin as [j Hj].
    destruct (Forall2_lookup_r _ _ _ _ _ Hall Hj)
      as ([operator' index'] & Hoi & Hentry').
    unfold entry_report in Hentry'. simpl in Hentry'.
    destruct (operator_code !! operator') as [label' |] eqn:Hlabel';
      simpl in Hentry'; [| done].
    destruct (report (database self) index' (networks self))
      as [m'' | e] eqn:Hm'; simpl in Hentry'; [| done].
    injection Hentry' as -> ->.
    assert (Hin : tower_indexes self !! operator' = Some index').
    { apply elem_of_map_to_list, list_elem_of_lookup. by exists j. }
    assert (operator' = operator) as -> by (apply Hinj; [by eexists | done]).
    assert (Hin' : tower_indexes self !! operator = Some index).
    { apply elem_of_map_to_list, list_elem_of_lookup. by exists i. }
    rewrite Hin in Hin'. injection Hin' as ->. congruence.
  - apply elem_of_reverse, list_elem_of_lookup. by exists i.
Qed.

(** X9: after a run that returns, the report holds under the label of a
    recorded operator, when no other recorded operator has that label, a
    mapping whose keys are exactly the networks of the instance, each with
    the string that [t_f] gives for the flag of the recorded row; what the
    report held under that label before is gone. *)
Theorem find_towers_coverage_report (self self' : TowerManager)
    (operator index : Z) (label : string) :
  find_towers_coverage operator_code self = Ok self' →
  tower_indexes self !! operator = Some index →
  operator_code !! operator = Some label →
  (∀ operator', is_Some (tower_indexes self !! operator') →
                operator_code !! operator' = Some label →
                operator' = operator) →
  ∃ m, towers_coverage self' !! label = Some m
       ∧ (∀ net, net ∈ networks self →
                 ∃ flag v, at_ (database self) index net = Ok flag
                           ∧ t_f flag = Some v ∧ m !! net = Some v)
       ∧ (∀ net, net ∉ networks self → m !! net = None).
Proof.
  intros Hrun Hop Hlabel Hinj.
  destruct (find_towers_coverage_label self self' operator index label)
    as (m & Hm & Hlook); try done.
  exists m. split; [done |]. by apply report_spec.
Qed.

(** X10: the report of a label that belongs to no recorded operator is kept
    as it was: a run adds to the report of the former runs and removes
    nothing from it. *)
Theorem find_towers_coverage_keeps (self self' : TowerManager)
    (label : string) :
  find_towers_coverage operator_code self = Ok self' →
  (∀ operator, is_Some (tower_indexes self !! operator) →
               operator_code !! operator ≠ Some label) →
  towers_coverage self' !! label = towers_coverage self !! label.
Proof.
  intros (lms & Hall & ->)%find_towers_coverage_Ok Hnone. simpl.
  apply lookup_union_r, not_elem_of_list_to_map_1.
  intros ([label' m] & Heq & Hin)%list_elem_of_fmap.
  apply (proj1 (elem_of_reverse _ _)) in Hin.
  apply list_elem_of_lookup in Hin as [j Hj].
  simpl in Heq. subst label'.
  destruct (Forall2_lookup_r _ _ _ _ _ Hall Hj)
    as ([operator index] & Hoi & Hentry).
  unfold entry_report in Hentry. simpl in Hentry.
  destruct (operator_code !! operator) as [label' |] eqn:Hlabel;
    simpl in Hentry; [| done].
  destruct (report _ _ _); simpl in Hentry; [| done].
  injection Hentry as -> _. apply (Hnone operator); [| done].
  exists index. apply elem_of_map_to_list, list_elem_of_lookup. by exists j.
Qed.

Lemma find_towers_coverage_again (self self' : TowerManager) :
  find_towers_coverage operator_code self = Ok self' →
  find_towers_coverage operator_code self' = Ok self'.
Proof.
  intros (lms & Hall & ->)%find_towers_coverage_Ok.
  apply find_towers_coverage_Ok. exists lms. simpl. split; [done |].
  f_equal. by rewrite (assoc_L (∪)), (idemp_L (∪)).
Qed.

(** X11: a run on the instance that a run returned changes nothing. *)
Theorem find_towers_coverage_idempotent (self self' : TowerManager) :
  find_towers_coverage operator_code self = Ok self' →
  find_towers_coverage operator_code self' = Ok self'.
Proof. apply find_towers_coverage_again. Qed.



End ReportTheorems.

Lemma find_towers_coverage_report_witness :
  ∃ self' m,
    find_towers_coverage operator_labels recorded = Ok self'
    ∧ towers_coverage self' !! "Orange" = Some m
    ∧ (∀ net, net ∈ networks recorded →
              ∃ flag v, at_ (database recorded) 0 net = Ok flag
                        ∧ t_f flag = Some v ∧ m !! net = Some v)
    ∧ (∀ net, net ∉ networks recorded → m !! net = None).
Proof.
  assert (Hrun : ∃ self', find_towers_coverage operator_labels recorded
                          = Ok self')
    by (eexists; vm_compute; reflexivity).
  destruct Hrun as [self' Hrun].
  destruct (find_towers_coverage_report operator_labels recorded self' 20801
              0 "Orange" Hrun eq_refl eq_refl
              (λ operator' _ Hcode, operator_labels_Orange operator' Hcode))
    as (m & Hm & Hin & Hout).
  exists self', m.
  split; [exact Hrun |]. split; [exact Hm |]. split; [exact Hin |].
  exact Hout.
Defined.

Lemma operator_labels_Telco (operator : Z) :
  operator_labels !! operator ≠ Some "Telco".
Proof.
  unfold operator_labels. simpl. rewrite !lookup_insert, lookup_empty.
  repeat case_decide; congruence.
Qed.

Lemma find_towers_coverage_keeps_witness :
  ∃ self',
    find_towers_coverage operator_labels reported = Ok self'
    ∧ towers_coverage self' !! "Telco" = Some {["2G" := Str "true"]}.
Proof.
  assert (Hrun : ∃ self', find_towers_coverage operator_labels reported
                          = Ok self')
    by (eexists; vm_compute; reflexivity).
  destruct Hrun as [self' Hrun]. exists self'. split; [exact Hrun |].
  rewrite (find_towers_coverage_keeps operator_labels reported self' "Telco"
             Hrun (λ operator _, operator_labels_Telco operator)).
  reflexivity.
Defined.

Lemma find_towers_coverage_idempotent_witness :
  ∃ self',
    find_towers_coverage operator_labels reported = Ok self'
    ∧ find_towers_coverage operator_labels self' = Ok self'.
Proof.
  assert (Hrun : ∃ self', find_towers_coverage operator_labels reported
                          = Ok self')
    by (eexists; vm_compute; reflexivity).
  destruct Hrun as [self' Hrun]. exists self'. split; [exact Hrun |].
  exact (find_towers_coverage_idempotent operator_labels reported self' Hrun).
Defined.

(** ** find_towers_coverage: the lookups that fail *)

(** [.at] on a label that no row has. *)
Lemma at_missing (df : DataFrame) (index : Z) (col : string) :
  (∀ row, (index, row) ∉ rows df) → at_ df index col = Raise KeyError.
Proof.
  intros Hnone. unfold at_.
  assert (Hfind : list_find (λ ir : Z * Tower, ir.1 = index) (rows df) = None).
  { apply list_find_None, Forall_forall. intros [i row] Hin Heq.
    simpl in Heq. subst i. by apply (Hnone row). }
  by rewrite Hfind.
Qed.


Section FailureTheorems.
Variable operator_code : gmap Z string.

Lemma find_towers_coverage_fails (self : TowerManager) (operator index : Z) :
  tower_indexes self !! operator = Some index →
  (∀ coverage, ∃ e,
     cover_operator operator_code (database self) (networks self) coverage
       (operator, index) = Raise e) →
  find_towers_coverage operator_code self = Raise KeyError.
Proof.
  intros Hop Hfail.
  destruct (find_towers_coverage operator_code self) as [self' | e] eqn:Hrun.
  - exfalso. revert Hrun. unfold find_towers_coverage.
    destruct (loop_fails
                (cover_operator operator_code (database self) (networks self))
                (map_to_list (tower_indexes self)) (operator, index)
                (Ok (towers_coverage self))) as [e He];
      [by apply elem_of_map_to_list | done |].
    by rewrite He.
  - f_equal. by apply find_towers_coverage_error in Hrun.
Qed.

Lemma find_towers_coverage_missing_row_aux (self : TowerManager)
    (operator index : Z) :
  tower_indexes self !! operator = Some index →
  (∀ row, (index, row) ∉ rows (database self)) →
  networks self ≠ [] →
  find_towers_coverage operator_code self = Raise KeyError.
Proof.
  intros Hop Hnone Hnets. apply (find_towers_coverage_fails _ operator index);
    [done |].
  intros coverage. rewrite cover_operator_entry. unfold entry_report. simpl.
  destruct (operator_code !! operator); simpl; [| by eexists].
  destruct (networks self) as [|net nets]; [done |].
  unfold report. rewrite loop_cons, at_missing by done. simpl.
  rewrite loop_Raise. by eexists.
Qed.

(** X13: when the label recorded for an operator is the label of no row of
    the table and the list of networks is not empty, the run raises
    [KeyError]: this is what becomes of the 0 of the first pair
    [(100.0, 0)] when the table has no row 0. *)
Theorem find_towers_coverage_missing_row (self : TowerManager)
    (operator index : Z) :
  tower_indexes self !! operator = Some index →
  (∀ row, (index, row) ∉ rows (database self)) →
  networks self ≠ [] →
  find_towers_coverage operator_code self = Raise KeyError.
Proof. apply find_towers_coverage_missing_row_aux. Qed.

(** X14: when a recorded operator has no label in [operator_code], the run
    raises [KeyError]. *)
Theorem find_towers_coverage_unknown_operator (self : TowerManager)
    (operator index : Z) :
  tower_indexes self !! operator = Some index →
  operator_code !! operator = None →
  find_towers_coverage operator_code self = Raise KeyError.
Proof.
  intros Hop Hnone. apply (find_towers_coverage_fails _ operator index);
    [done |].
  intros coverage. unfold cover_operator. rewrite Hnone. by eexists.
Qed.

End FailureTheorems.

Lemma find_towers_coverage_missing_row_witness :
  tower_indexes unreachable !! 20820 = Some 0
  ∧ networks unreachable ≠ []
  ∧ find_towers_coverage operator_labels unreachable = Raise KeyError.
Proof.
  assert (Hop : tower_indexes unreachable !! 20820 = Some 0) by reflexivity.
  assert (Hnets : networks unreachable ≠ []) by discriminate.
  assert (Hnone : ∀ row, (0, row) ∉ rows (database unreachable)).
  { intros row Hin. vm_compute in Hin. case_rows Hin; discriminate. }
  split; [exact Hop |]. split; [exact Hnets |].
  exact (find_towers_coverage_missing_row operator_labels unreachable 20820 0
           Hop Hnone Hnets).
Defined.

Lemma find_towers_coverage_unknown_operator_witness :
  tower_indexes unlabelled !! 20826 = Some 4
  ∧ operator_labels !! 20826 = None
  ∧ find_towers_coverage operator_labels unlabelled = Raise KeyError.
Proof.
  assert (Hop : tower_indexes unlabelled !! 20826 = Some 4) by reflexivity.
  assert (Hnone : operator_labels !! 20826 = None) by reflexivity.
  split; [exact Hop |]. split; [exact Hnone |].
  exact (find_towers_coverage_unknown_operator operator_labels unlabelled
           20826 4 Hop Hnone).
Defined.

(** ** location_coverage: the three steps together *)

Section Composition.
Variable operator_code : gmap Z string.

(** The instance on which the second step runs. *)
Local Abbreviation reduced self ret :=
  {| location := location self; database := ret; networks := networks self;
     tower_indexes := tower_indexes self;
     towers_coverage := towers_coverage self |}.

(** A call that ends went through the three steps. *)
Lemma location_coverage_Some (fuel : nat) (self : TowerManager)
    (r : result TowerManager) :
  location_coverage operator_code fuel self = Some r →
  ∃ ret s2,
    reduced_database fuel (database self) (location self) 1 = Some ret
    ∧ locate_closest_towers (reduced self ret) = Ok s2
    ∧ r = find_towers_coverage operator_code s2.
Proof.
  unfold location_coverage.
  destruct (reduced_database _ _ _ _) as [ret |]; [| done].
  intros [= <-]. exists ret.
  destruct (locate_closest_towers_spec (reduced self ret)) as (s2 & Hs2 & _).
  exists s2. by rewrite Hs2.
Qed.


(** X16: after a call that returns, for every operator that has, in the
    table stored, a row nearer than 100, the label recorded is the one of a
    nearest row of that operator in the table stored, and the report holds
    under the label of the operator, when no other recorded operator has
    it, the strings of the flags of the row of that label for the networks
    of the instance. *)
Theorem location_coverage_nearest (fuel : nat) (self self' : TowerManager)
    (operator index : Z) (row : Tower) :
  location_coverage operator_code fuel self = Some (Ok self') →
  (index, row) ∈ rows (database self') →
  Operateur row = operator →
  dist_lt (distance (location self) row) (dist_of 100) →
  ∃ index',
    tower_indexes self' !! operator = Some index'
    ∧ nearest (location self) (database self') operator index'
    ∧ ∀ label,
        operator_code !! operator = Some label →
        (∀ operator', is_Some (tower_indexes self' !! operator') →
                      operator_code !! operator' = Some label →
                      operator' = operator) →
        ∃ m, towers_coverage self' !! label = Some m
             ∧ (∀ net, net ∈ networks self →
                       ∃ flag v, at_ (database self') index' net = Ok flag
                                 ∧ t_f flag = Some v ∧ m !! net = Some v)
             ∧ (∀ net, net ∉ networks self → m !! net = None).
Proof.
  intros (ret & s2 & Hret & Hs2 & Hfind)%location_coverage_Some Hrow Hop Hnear.
  symmetry in Hfind.
  destruct (find_towers_coverage_frame _ _ _ Hfind) as (Hl & Hd & Hn & Hti).
  destruct (locate_closest_towers_frame _ _ Hs2) as (Hl2 & Hd2 & Hn2 & _).
  simpl in *. rewrite Hd, Hd2 in Hrow |- *. rewrite Hti.
  destruct (locate_closest_towers_in_range (reduced self ret) operator index
              row Hrow Hop Hnear) as (s2' & index' & Hs2' & Hlook & Hbest).
  rewrite Hs2 in Hs2'. injection Hs2' as <-. simpl in Hbest.
  exists index'. split; [done |]. split; [done |].
  intros label Hlabel Hinj.
  destruct (find_towers_coverage_label operator_code s2 self' operator index'
              label Hfind Hlook Hlabel Hinj) as (m & Hm & Hcov).
  exists m. split; [done |]. rewrite Hd2, Hn2 in Hm. by apply report_spec.
Qed.


(** X18: a second call on the instance that a call returned returns it
    again: the table stored is reduced to itself, the same labels are
    recorded and the same report is written. *)
Theorem location_coverage_idempotent (fuel : nat)
    (self self' : TowerManager) :
  location_coverage operator_code fuel self = Some (Ok self') →
  location_coverage operator_code fuel self' = Some (Ok self').
Proof.
  intros (ret & s2 & Hret & Hs2 & Hfind)%location_coverage_Some.
  symmetry in Hfind.
  destruct (find_towers_coverage_frame _ _ _ Hfind) as (Hl & Hd & Hn & Hti).
  destruct (locate_closest_towers_frame _ _ Hs2) as (Hl2 & Hd2 & Hn2 & Hc2).
  simpl in *.
  unfold location_coverage. rewrite Hl, Hd, Hl2, Hd2.
  rewrite (reduced_database_again _ _ _ _ _ Hret).
  assert (Hsame : reduced self' ret = self').
  { destruct self'. simpl in *. by rewrite <- Hd2, <- Hd. }
  rewrite <- Hl2, <- Hl, Hsame.
  assert (Hagain : locate_closest_towers self' = Ok self').
  { destruct (locate_closest_towers_spec self') as (s3 & Hs3 & Hlook3).
    rewrite Hs3. f_equal.
    destruct (locate_closest_towers_frame _ _ Hs3) as (Hl3 & Hd3 & Hn3 & Hc3).
    destruct (locate_closest_towers_spec (reduced self ret))
      as (s2' & Hs2' & Hlook2).
    rewrite Hs2 in Hs2'. injection Hs2' as <-. simpl in Hlook2.
    destruct s3 as [l3 d3 n3 ti3 c3], self' as [l1 d1 n1 ti1 c1]. simpl in *.
    subst l3 d3 n3 c3. f_equal. apply map_eq. intros operator.
    rewrite Hlook3, Hd, Hd2, Hl, Hl2. subst ti1. rewrite Hlook2.
    by case_decide. }
  rewrite Hagain. simpl. f_equal.
  exact (find_towers_coverage_again operator_code s2 self' Hfind).
Qed.

(** X19: when the table that [reduced_database] returns holds an operator
    with no row nearer than 100 and has no row of label 0, and the list of
    networks is not empty, the call raises [KeyError]. *)
Theorem location_coverage_out_of_range (fuel : nat) (self : TowerManager)
    (ret : DataFrame) (operator : Z) :
  reduced_database fuel (database self) (location self) 1 = Some ret →
  operator ∈ operators ret →
  (∀ ir, ir ∈ rows ret → Operateur ir.2 = operator →
         dist_le (dist_of 100) (distance (location self) ir.2)) →
  (∀ row, (0, row) ∉ rows ret) →
  networks self ≠ [] →
  location_coverage operator_code fuel self = Some (Raise KeyError).
Proof.
  intros Hret Hop Hfar Hnone Hnets. unfold location_coverage. rewrite Hret.
  destruct (locate_closest_towers_out_of_range (reduced self ret) operator
              Hop Hfar) as (s2 & Hs2 & Hrec).
  rewrite Hs2. simpl. f_equal.
  destruct (locate_closest_towers_frame _ _ Hs2) as (_ & Hd2 & Hn2 & _).
  simpl in *.
  apply (find_towers_coverage_missing_row_aux operator_code s2 operator 0);
    [done | by rewrite Hd2 | by rewrite Hn2].
Qed.

End Composition.


Lemma location_coverage_nearest_witness :
  ∃ self' index',
    location_coverage operator_labels 1 (manager paris five_operators)
    = Some (Ok self')
    ∧ (1, tower 20810 48.8 2.4 1 1 0) ∈ rows (database self')
    ∧ tower_indexes self' !! 20810 = Some index'
    ∧ nearest paris (database self') 20810 index'.
Proof.
  assert (Hrun : ∃ self', location_coverage operator_labels 1
                            (manager paris five_operators) = Some (Ok self'))
    by (eexists; vm_compute; reflexivity).
  destruct Hrun as [self' Hrun].
  assert (Hdb : database self' = box five_operators paris 1).
  { apply location_coverage_Some in Hrun as (ret & s2 & Hret & Hs2 & Hfind).
    symmetry in Hfind.
    apply find_towers_coverage_frame in Hfind as (_ & -> & _).
    apply locate_closest_towers_frame in Hs2 as (_ & -> & _).
    vm_compute in Hret. by injection Hret as <-. }
  assert (Hrow : (1, tower 20810 48.8 2.4 1 1 0) ∈ rows (database self')).
  { rewrite Hdb. apply (bool_decide_unpack _). vm_compute. done. }
  assert (Hop : Operateur (tower 20810 48.8 2.4 1 1 0) = 20810)
    by reflexivity.
  assert (Hnear : dist_lt (distance (location (manager paris five_operators))
                             (tower 20810 48.8 2.4 1 1 0)) (dist_of 100))
    by reflexivity.
  pose proof (location_coverage_nearest operator_labels 1
                (manager paris five_operators) self' 20810 1 _ Hrun Hrow
                Hop Hnear) as Hnearest.
  destruct Hnearest as (index' & Hrec & Hbest & _).
  exists self', index'.
  split; [exact Hrun |]. split; [exact Hrow |]. split; [exact Hrec |].
  exact Hbest.
Defined.





Lemma location_coverage_idempotent_witness :
  ∃ self',
    location_coverage operator_labels 1 (manager paris five_operators)
    = Some (Ok self')
    ∧ location_coverage operator_labels 1 self' = Some (Ok self').
Proof.
  assert (Hrun : ∃ self', location_coverage operator_labels 1
                            (manager paris five_operators) = Some (Ok self'))
    by (eexists; vm_compute; reflexivity).
  destruct Hrun as [self' Hrun]. exists self'. split; [exact Hrun |].
  exact (location_coverage_idempotent operator_labels 1 _ self' Hrun).
Defined.

Lemma location_coverage_out_of_range_witness :
  reduced_database 100 scattered equator 1 = Some (box scattered equator 81)
  ∧ 20820 ∈ operators (box scattered equator 81)
  ∧ location_coverage operator_labels 100 (manager equator scattered)
    = Some (Raise KeyError).
Proof.
  assert (Hfar : ∀ ir, ir ∈ rows (box scattered equator 81) →
                       Operateur ir.2 = 20820 →
                       dist_le (dist_of 100) (distance equator ir.2)).
  { intros ir Hir Hrow. vm_compute in Hir.
    case_rows Hir; subst ir; simpl in Hrow; try discriminate Hrow.
    unfold dist_le. apply Qle_bool_iff. vm_compute. reflexivity. }
  assert (Hnone : ∀ row, (0, row) ∉ rows (box scattered equator 81)).
  { intros row Hin. vm_compute in Hin. case_rows Hin; discriminate Hin. }
  assert (Hnets : networks (manager equator scattered) ≠ [])
    by discriminate.
  assert (Hop : 20820 ∈ operators (box scattered equator 81))
    by (apply (bool_decide_unpack _); vm_compute; exact I).
  assert (Hret : reduced_database 100 scattered equator 1
                 = Some (box scattered equator 81))
    by (vm_compute; reflexivity).
  split; [exact Hret |]. split; [exact Hop |].
  exact (location_coverage_out_of_range operator_labels 100
           (manager equator scattered) _ 20820 Hret Hop Hfar Hnone Hnets).
Defined.

(** ** __init__: the outcome *)

(** X20: the checks of the construction run in the order location, table,
    networks, and the first one that fails decides the message of the
    [AttributeError]; when none fails the instance holds the location, the
    table (the one given, or the local one), the list of networks as given
    (2G, 3G, 4G when none is given), no recorded label and an empty
    report. *)
Theorem init_outcome (local_csv : DataFrame) (location : location_arg)
    (database : option DataFrame) (networks : networks_arg) :
  (location = NotALocator →
   init local_csv location database networks
   = Raise (AttributeError "The location provided is not a Locator!"))
  ∧ (∀ l, location = ALocator l →
          ¬ expected_columns ⊆ columns (default local_csv database) →
          init local_csv location database networks
          = Raise (AttributeError
                     "Database does not contain the minimum expected columns!"))
  ∧ (∀ l, location = ALocator l →
          expected_columns ⊆ columns (default local_csv database) →
          networks = NetworksOther →
          init local_csv location database networks
          = Raise (AttributeError
                     "networks provided is expected to be a list!"))
  ∧ (∀ l nets, location = ALocator l →
               expected_columns ⊆ columns (default local_csv database) →
               networks = NetworksList nets →
               ¬ nets ⊆ columns (default local_csv database) →
               init local_csv location database networks
               = Raise (AttributeError
                          "Provided networks are not in the database!"))
  ∧ (∀ l nets, location = ALocator l →
               expected_columns ⊆ columns (default local_csv database) →
               networks = NetworksList nets
               ∨ (networks = NetworksNone ∧ nets = ["2G"; "3G"; "4G"]) →
               nets ⊆ columns (default local_csv database) →
               init local_csv location database networks
               = Ok {| location := l;
                       database := default local_csv database;
                       networks := nets;
                       tower_indexes := ∅;
                       towers_coverage := ∅ |}).
Proof.
  unfold init, check_database, check_networks.
  split; [by intros -> |].
  split; [intros l -> Hcols; simpl; by rewrite bool_decide_eq_false_2 |].
  split; [intros l -> Hcols ->; simpl; by rewrite bool_decide_eq_true_2 |].
  split.
  - intros l nets -> Hcols -> Hnets. simpl.
    rewrite bool_decide_eq_true_2 by done. simpl.
    by rewrite bool_decide_eq_false_2.
  - intros l nets -> Hcols [-> | [-> ->]] Hnets; simpl;
      rewrite bool_decide_eq_true_2 by done; simpl;
      by rewrite bool_decide_eq_true_2.
Qed.

Lemma init_outcome_witness :
  ¬ ["5G"] ⊆ columns five_operators
  ∧ init three_operators (ALocator paris) (Some five_operators)
      (NetworksList ["5G"])
    = Raise (AttributeError "Provided networks are not in the database!").
Proof.
  assert (Hcols : expected_columns ⊆ columns five_operators) by done.
  assert (Hnets : ¬ ["5G"] ⊆ columns five_operators).
  { intros Hsub. specialize (Hsub "5G"). revert Hsub.
    apply (bool_decide_unpack _). vm_compute. done. }
  split; [exact Hnets |].
  exact (proj1 (proj2 (proj2 (proj2
           (init_outcome three_operators (ALocator paris)
              (Some five_operators) (NetworksList ["5G"])))))
           paris ["5G"] eq_refl Hcols eq_refl Hnets).
Defined.
